(** * search-restaurants: the aggregation and ranking function

    A shallow embedding of the edge function [search-restaurants]
    (geocode, nearby search, per-venue enrichment with a 24 hour cache,
    review summarisation, scoring, ranking) and of the parts of the
    database schema its cache relies on.

    Conventions of the embedding.
    - A JavaScript [number] that the handler only stores, compares or
      clamps is the rational it denotes ([Q]); where the code can meet
      NaN or an infinity, in the clamp of the generator's numbers, it is
      a [Js.number]. The arithmetic of the score is embedded twice:
      [totalScore] adds exact rationals, which is what the order, the
      bounds and the monotonicity of the scores are stated on, and
      [Binary64.totalScore] is the same callback on IEEE 754 binary64
      numbers, which is what the runtime computes; after rounding the two
      can differ by one ([double_rounding_ex]).
    - A string is a [string] of code units below 256; [length] counts
      them.
    - An optional field ([x?: T], a nullable column) is an [option].
    - Outbound HTTP calls are answers of a [World]; every call is appended
      to a log, so that "the adapter is not invoked" is a statement about
      the log.
    - The two cache tables are finite maps keyed by [place_id] (the column
      is declared UNIQUE); the database client is configured, and a store
      operation never throws. An upsert writes the members of the object
      it is given: a column without a member keeps its value on a
      conflict and takes its DEFAULT on an insert. The store keeps what
      it is sent: the types and the constraints of the columns are not
      modelled.
    - [Date.now()] is one instant for the whole request.
    - [Promise.all] over the candidates is modelled by running the
      candidates one after the other, in the order of the search result.
    - [console.log] and friends are omitted. *)

From Stdlib Require Import ZArith QArith Qround Qabs String Ascii List Lia.
From Stdlib Require Import Sorting.Sorted Sorting.Permutation.
From Stdlib Require Import Lqa.
From Stdlib Require Import Floats.SpecFloat.
From stdpp Require Import gmap strings list fin_maps.
Import ListNotations.
Local Open Scope Z_scope.

(** ** Strings and numbers of the host language *)

Module Js.

Definition is_digit (c : ascii) : bool :=
  let n := nat_of_ascii c in ((48 <=? n) && (n <=? 57))%nat.

Definition digit_val (c : ascii) : Z := Z.of_nat (nat_of_ascii c) - 48.

(** White space and line terminators, which [String.prototype.trim] and
    [parseFloat] skip, among the code units below 256: TAB, LF, VT, FF,
    CR, SP and the no-break space U+00A0. *)
Definition is_space (c : ascii) : bool :=
  let n := nat_of_ascii c in
  (((9 <=? n) && (n <=? 13)) || (n =? 32) || (n =? 160))%nat.

Fixpoint trim_start (s : string) : string :=
  match s with
  | String c s' => if is_space c then trim_start s' else s
  | EmptyString => EmptyString
  end.

Fixpoint trim_end (s : string) : string :=
  match s with
  | String c s' =>
      match trim_end s' with
      | EmptyString => if is_space c then EmptyString else String c EmptyString
      | t => String c t
      end
  | EmptyString => EmptyString
  end.

Definition trim (s : string) : string := trim_end (trim_start s).

(** [s.includes(c)] for a one-character needle. *)
Fixpoint includes (c : ascii) (s : string) : bool :=
  match s with
  | String d s' => if Ascii.eqb c d then true else includes c s'
  | EmptyString => false
  end.

(** [s.split(c)] for a one-character separator. *)
Fixpoint split (c : ascii) (s : string) : list string :=
  match s with
  | EmptyString => [EmptyString]
  | String d s' =>
      if Ascii.eqb c d then EmptyString :: split c s'
      else match split c s' with
           | w :: ws => String d w :: ws
           | [] => [String d EmptyString]
           end
  end.

Fixpoint skip_digits (s : string) : string :=
  match s with
  | String c s' => if is_digit c then skip_digits s' else s
  | EmptyString => EmptyString
  end.

(** One number of the pattern: [-?\d+\.?\d*]; the remainder of the
    string after the longest match, if there is a match. Backtracking
    cannot change the outcome of the test: the text of a number is a run of
    digits, an optional dot and a run of digits, and what follows it has
    to be a comma or the end of the string. *)
Definition match_decimal (s : string) : option string :=
  let s1 :=
    match s with
    | String c r => if Ascii.eqb c "-" then r else s
    | EmptyString => s
    end in
  match s1 with
  | String c r =>
      if is_digit c then
        let r1 := skip_digits r in
        let r2 :=
          match r1 with
          | String d t => if Ascii.eqb d "." then t else r1
          | EmptyString => r1
          end in
        Some (skip_digits r2)
      else None
  | EmptyString => None
  end.

(** [/^-?\d+\.?\d*,-?\d+\.?\d*$/.test(s)] *)
Definition coordinate_pattern (s : string) : bool :=
  match match_decimal s with
  | Some (String c r) =>
      Ascii.eqb c ","
      && match match_decimal r with
         | Some EmptyString => true
         | _ => false
         end
  | _ => false
  end.

Fixpoint read_digits (s : string) (acc : Z) (n : nat) : Z * nat * string :=
  match s with
  | String c s' =>
      if is_digit c then read_digits s' (10 * acc + digit_val c) (S n)
      else (acc, n, s)
  | EmptyString => (acc, n, s)
  end.

(** [parseFloat]: leading white space, an optional sign, the longest
    decimal literal; [None] is NaN. Exponents and the literal
    [Infinity] are not read: the guard in front of the only call
    rejects every string that contains a letter. *)
Definition parseFloat (s : string) : option Q :=
  let s0 := trim_start s in
  let '(neg, s1) :=
    match s0 with
    | String c r =>
        if Ascii.eqb c "-" then (true, r)
        else if Ascii.eqb c "+" then (false, r)
        else (false, s0)
    | EmptyString => (false, s0)
    end in
  let '(ip, ni, r) := read_digits s1 0 0%nat in
  let '(fp, nf, _) :=
    match r with
    | String c r' => if Ascii.eqb c "." then read_digits r' 0 0%nat else (0, 0%nat, r)
    | EmptyString => (0, 0%nat, r)
    end in
  if ((ni =? 0) && (nf =? 0))%nat then None
  else
    let q := (inject_Z ip + (fp # Z.to_pos (10 ^ Z.of_nat nf)))%Q in
    Some (if neg then (- q)%Q else q).

(** [s.replace(/pat\n?/g, '')] for a literal [pat]: [skip] counts the
    characters of the current match that are still to be dropped. *)
Fixpoint remove_all (pat : string) (skip : nat) (s : string) : string :=
  match s with
  | EmptyString => EmptyString
  | String c s' =>
      match skip with
      | S k => remove_all pat k s'
      | O =>
          if String.prefix pat s then
            let n := String.length pat in
            let nl :=
              match String.get n s with
              | Some "010"%char => 1%nat
              | _ => 0%nat
              end in
            remove_all pat (n + nl - 1) s'
          else String c (remove_all pat 0 s')
      end
  end.

(** Truthiness of a number: everything but 0 (and NaN). *)
Definition truthy (q : Q) : bool := negb (Qeq_bool q 0).

(** A number as [Math.min] and [Math.max] see it: NaN, an infinity, or a
    finite number, which is the rational it denotes. *)
Inductive number :=
| NaN
| NegInfinity
| Finite (q : Q)
| PosInfinity.

(** [Math.min(a, b)]: NaN as soon as an argument is NaN. *)
Definition Math_min (a b : number) : number :=
  match a, b with
  | NaN, _ | _, NaN => NaN
  | NegInfinity, _ | _, NegInfinity => NegInfinity
  | PosInfinity, x | x, PosInfinity => x
  | Finite p, Finite q => if Qle_bool p q then a else b
  end.

(** [Math.max(a, b)]: NaN as soon as an argument is NaN. *)
Definition Math_max (a b : number) : number :=
  match a, b with
  | NaN, _ | _, NaN => NaN
  | PosInfinity, _ | _, PosInfinity => PosInfinity
  | NegInfinity, x | x, NegInfinity => x
  | Finite p, Finite q => if Qle_bool p q then b else a
  end.

(** What [JSON.stringify] writes for a number: NaN and the infinities
    are written [null]. *)
Definition JSON_number (x : number) : option Q :=
  match x with
  | Finite q => Some q
  | _ => None
  end.

(** [Math.round]: the nearest integer, halves towards plus infinity. *)
Definition Math_round (q : Q) : Z := Qfloor (q + (1 # 2)).

End Js.

(** ** Data model *)

Record Coordinates := { lat : Q; lng : Q }.

(** The request body, before the defaults of the destructuring. *)
Record SearchParams := {
  location : string;
  radius : option Q;
  max_price : option Q;
  cuisine : option string;
  veg_only : option bool;
  jain_food : option bool;
  menu : option (list string)
}.

Record Review := {
  review_text : string;
  review_rating : Q;
  review_time : Q
}.

Record Photo := { photo_reference : string }.

(** [interface PlaceDetails]. [rating] and [price_level] are optional:
    the provider omits them for venues without ratings, the columns that
    cache them are nullable, and the scoring guards on them. *)
Record PlaceDetails := {
  pd_place_id : string;
  pd_name : string;
  pd_rating : option Q;
  pd_price_level : option Q;
  pd_formatted_address : string;
  pd_location : Coordinates;
  pd_photos : option (list Photo);
  pd_formatted_phone_number : option string;
  pd_website : option string;
  pd_types : list string;
  pd_reviews : option (list Review)
}.

(** The object built from the details, which is also the row of table
    [restaurants] the code reads back ([select('*')]); the columns the
    function never reads are left out. A NULL [reviews] column reads as
    the empty list: both skip the summary. *)
Record RestaurantData := {
  rd_place_id : string;
  rd_name : string;
  rd_rating : option Q;
  rd_price_level : option Q;
  rd_formatted_address : string;
  rd_location : Coordinates;
  rd_photos : list string;
  rd_phone_number : option string;
  rd_website : option string;
  rd_types : list string;
  rd_reviews : list Review;
  rd_cached_at : Z
}.

(** A value of a field of the generator's JSON that the code inspects
    dynamically. *)
Inductive jsval :=
| JUndefined
| JNull
| JBool (b : bool)
| JNum (q : Q)
| JStr (s : string)
| JArr (l : list string)
| JObject.


(** [interface GeminiAnalysis], the result of [JSON.parse]. Nothing
    checks the parsed value against the interface. [ga_rank_score] and
    [ga_confidence] are the numbers that [Math.min] makes of the members
    [rank_score] and [confidence]: NaN when the member is missing or is
    not numeric. *)
Record GeminiAnalysis := {
  ga_place_id : string;
  ga_rank_score : Js.number;
  ga_short_summary : string;
  ga_pros : jsval;
  ga_cons : jsval;
  ga_dishes_to_try : option (list string);
  ga_matching_menu_items : option (list string);
  ga_top_positive_quote : option string;
  ga_top_negative_quote : option string;
  ga_confidence : Js.number
}.

(** The object literal [aiSummary] handed to [upsert]. *)
Record AiSummary := {
  as_place_id : string;
  as_rank_score : Js.number;
  as_short_summary : string;
  as_pros : list string;
  as_cons : list string;
  as_top_positive_quote : option string;
  as_top_negative_quote : option string;
  as_confidence : Js.number;
  as_generated_at : Z
}.

(** A row of table [restaurant_ai_summaries], as the store answers it:
    a number that was sent as [null] is [None]. *)
Record SummaryRow := {
  sr_place_id : string;
  sr_rank_score : option Q;
  sr_short_summary : string;
  sr_pros : list string;
  sr_cons : list string;
  sr_dishes_to_try : list string;
  sr_matching_menu_items : list string;
  sr_top_positive_quote : option string;
  sr_top_negative_quote : option string;
  sr_confidence : option Q;
  sr_generated_at : Z
}.

(** The [ai_summary] member of a result. For [rank_score] and
    [confidence], [None] is the [null] of a cached row and the NaN of a
    summary generated in this request: both are falsy in the scoring and
    both are written [null] in the response. An infinity does not occur:
    a cached number comes from JSON and a generated one is clamped. *)
Record AiSummaryView := {
  rank_score : option Q;
  short_summary : string;
  pros : list string;
  cons : list string;
  top_positive_quote : option string;
  top_negative_quote : option string;
  confidence : option Q
}.

(** What the per-candidate function returns when it does not return
    [null]. *)
Record Restaurant := {
  id : string;
  place_id : string;
  name : string;
  rating : option Q;
  price_level : option Q;
  formatted_address : string;
  r_location : Coordinates;
  photos : list string;
  phone_number : option string;
  website : option string;
  types : list string;
  ai_summary : option AiSummaryView
}.

(** [{...restaurant, total_score}] *)
Record RankedRestaurant := {
  restaurant : Restaurant;
  total_score : Z
}.

(** ** The outside world *)

Record GeocodeResult := {
  gr_formatted_address : string;
  gr_location : Coordinates
}.

Record GeocodeData := {
  geo_status : string;
  geo_results : list GeocodeResult
}.

(** A candidate of the nearby search. *)
Record Place := {
  pl_place_id : string;
  pl_name : string
}.

Record PlacesData := {
  places_status : string;
  places_results : list Place
}.

Record DetailsData := {
  details_status : string;
  details_result : option PlaceDetails
}.

(** The first candidate of a generator answer; [cand_text] is [None] when
    [content.parts[0].text] cannot be read as a string (the access or the
    [replace] that follows throws). *)
Record GeminiCandidate := { cand_text : option string }.

Record GeminiData := { candidates : option (list GeminiCandidate) }.

(** The query string of the nearby search. *)
Record PlacesQuery := {
  pq_location : Coordinates;
  pq_radius : Q;
  pq_maxprice : option Q
}.

(** The interpolated parts of the analysis prompt. *)
Record Prompt := {
  pr_place_id : string;
  pr_name : string;
  pr_rating : option Q;
  pr_price_level : option Q;
  pr_cuisine : list string;
  pr_address : string;
  pr_reviews : list string;
  pr_veg_only : bool;
  pr_jain_food : bool;
  pr_menu : list string
}.

(** [await fetch(..)] followed by [await response.json()]: either it
    throws or it yields the decoded body. *)
Inductive Fetched (A : Type) :=
| FetchThrows (msg : string)
| FetchJson (a : A).
Arguments FetchThrows {A} msg.
Arguments FetchJson {A} a.

Record World := {
  GOOGLE_PLACES_API_KEY : option string;
  GEMINI_API_KEY : option string;
  (** [Date.now()], in milliseconds; one instant for the whole request. *)
  Date_now : Z;
  geocode_api : string -> Fetched GeocodeData;
  nearbysearch_api : PlacesQuery -> Fetched PlacesData;
  details_api : string -> Fetched DetailsData;
  generate_api : Prompt -> Fetched GeminiData;
  (** [JSON.parse] at type [GeminiAnalysis]; [None] when it throws, or
      when reading the members of what it yields throws. *)
  JSON_parse : string -> option GeminiAnalysis
}.

(** The log of outbound calls. *)
Inductive Event :=
| EvGeocode (address : string)
| EvNearbySearch (q : PlacesQuery)
| EvDetails (place_id : string)
| EvGenerate (p : Prompt).

Record State := {
  restaurants_tbl : gmap string RestaurantData;
  summaries_tbl : gmap string SummaryRow;
  calls : list Event
}.

(** ** Errors and the monad of the handler *)

Inductive Error :=
| MissingCredentials
| InvalidCoordinates
| LocationNotFound (input : string)
| GeocodingError (status : string)
| PlacesSearchError (status : string)
| FetchError (msg : string)
| TypeError (msg : string).

(** [error.message]; character 034 is the double quote. *)
Definition message (e : Error) : string :=
  match e with
  | MissingCredentials => "Missing required API keys"
  | InvalidCoordinates => "Invalid coordinate format"
  | LocationNotFound input =>
      "Unable to find location " +:+ String "034" input +:+ String "034"
        ". Please try a more specific address or city name."
  | GeocodingError status => "Geocoding failed: " +:+ status
  | PlacesSearchError status => "Places API error: " +:+ status
  | FetchError msg => msg
  | TypeError msg => msg
  end.

Inductive Outcome (A : Type) :=
| Returned (a : A)
| Thrown (e : Error).
Arguments Returned {A} a.
Arguments Thrown {A} e.

Definition M (A : Type) : Type := State -> Outcome A * State.

Definition ret {A} (a : A) : M A := fun st => (Returned a, st).

Definition throw {A} (e : Error) : M A := fun st => (Thrown e, st).

Definition bind {A B} (m : M A) (k : A -> M B) : M B :=
  fun st =>
    match m st with
    | (Returned a, st') => k a st'
    | (Thrown e, st') => (Thrown e, st')
    end.

(** [try { m } catch (e) { h e }]; what [m] did before it threw stays
    done. *)
Definition try_catch {A} (m : M A) (h : Error -> M A) : M A :=
  fun st =>
    match m st with
    | (Returned a, st') => (Returned a, st')
    | (Thrown e, st') => h e st'
    end.

Notation "x <- m ;; k" := (bind m (fun x => k))
  (at level 100, m at next level, right associativity).
Notation "m ;;; k" := (bind m (fun _ => k))
  (at level 100, right associativity).

Definition get_state : M State := fun st => (Returned st, st).

Definition with_call (st : State) (e : Event) : State :=
  {| restaurants_tbl := restaurants_tbl st;
     summaries_tbl := summaries_tbl st;
     calls := calls st ++ [e] |}.

Definition log_call (e : Event) : M unit :=
  fun st => (Returned tt, with_call st e).

(** An outbound call: logged, then answered by the world. *)
Definition fetch_json {A} (e : Event) (answer : Fetched A) : M A :=
  log_call e ;;;
  match answer with
  | FetchThrows msg => throw (FetchError msg)
  | FetchJson a => ret a
  end.

Fixpoint mapM {A B} (f : A -> M B) (l : list A) : M (list B) :=
  match l with
  | [] => ret []
  | x :: l' =>
      y <- f x ;;
      ys <- mapM f l' ;;
      ret (y :: ys)
  end.

(** ** The cache store *)

(** [24 * 60 * 60 * 1000] *)
Definition DAY_MS : Z := 24 * 60 * 60 * 1000.

(** [.gte(column, new Date(Date.now() - 24h).toISOString())] *)
Definition fresh (W : World) (stamp : Z) : bool :=
  Date_now W - DAY_MS <=? stamp.

(** The row of key [k] in table [restaurants], if it is fresh. *)
Definition fresh_venue (W : World) (st : State) (k : string)
  : option RestaurantData :=
  match restaurants_tbl st !! k with
  | Some row => if fresh W (rd_cached_at row) then Some row else None
  | None => None
  end.

(** The row of key [k] in table [restaurant_ai_summaries], if it is fresh. *)
Definition fresh_summary (W : World) (st : State) (k : string)
  : option SummaryRow :=
  match summaries_tbl st !! k with
  | Some row => if fresh W (sr_generated_at row) then Some row else None
  | None => None
  end.

(** [from('restaurants').select('*').eq('place_id', k).gte('cached_at', ..)
    .single()]: the row of that key if it is fresh, [null] otherwise. *)
Definition select_restaurant (W : World) (k : string) : M (option RestaurantData) :=
  st <- get_state ;;
  ret (fresh_venue W st k).

(** A member that is [undefined] is not sent with the upsert: on a
    conflict the column keeps the value of the existing row, on an insert
    it is NULL. *)
Definition kept {A} (sent : option A) (old : option A) : option A :=
  match sent with
  | Some _ => sent
  | None => old
  end.

(** The row an upsert of [new] leaves in [restaurants]. *)
Definition venue_row (old : option RestaurantData) (new : RestaurantData)
  : RestaurantData :=
  {| rd_place_id := rd_place_id new;
     rd_name := rd_name new;
     rd_rating := kept (rd_rating new) (old ≫= rd_rating);
     rd_price_level := kept (rd_price_level new) (old ≫= rd_price_level);
     rd_formatted_address := rd_formatted_address new;
     rd_location := rd_location new;
     rd_photos := rd_photos new;
     rd_phone_number := kept (rd_phone_number new) (old ≫= rd_phone_number);
     rd_website := kept (rd_website new) (old ≫= rd_website);
     rd_types := rd_types new;
     rd_reviews := rd_reviews new;
     rd_cached_at := rd_cached_at new |}.

Definition with_venue (st : State) (row : RestaurantData) : State :=
  let k := rd_place_id row in
  {| restaurants_tbl :=
       <[k := venue_row (restaurants_tbl st !! k) row]> (restaurants_tbl st);
     summaries_tbl := summaries_tbl st;
     calls := calls st |}.

(** [from('restaurants').upsert(row, { onConflict: 'place_id' })] *)
Definition upsert_restaurant (row : RestaurantData) : M unit :=
  fun st => (Returned tt, with_venue st row).

Definition select_summary (W : World) (k : string) : M (option SummaryRow) :=
  st <- get_state ;;
  ret (fresh_summary W st k).

(** The row an upsert of [a] leaves in [restaurant_ai_summaries]: the
    columns of the object are written; a column the object does not
    mention keeps its value when the key exists and takes the DEFAULT of
    the schema (['{}'] for the two lists of dishes) when the row is
    inserted. *)
Definition summary_row (old : option SummaryRow) (a : AiSummary) : SummaryRow :=
  {| sr_place_id := as_place_id a;
     sr_rank_score := Js.JSON_number (as_rank_score a);
     sr_short_summary := as_short_summary a;
     sr_pros := as_pros a;
     sr_cons := as_cons a;
     sr_dishes_to_try :=
       match old with Some o => sr_dishes_to_try o | None => [] end;
     sr_matching_menu_items :=
       match old with Some o => sr_matching_menu_items o | None => [] end;
     sr_top_positive_quote :=
       kept (as_top_positive_quote a) (old ≫= sr_top_positive_quote);
     sr_top_negative_quote :=
       kept (as_top_negative_quote a) (old ≫= sr_top_negative_quote);
     sr_confidence := Js.JSON_number (as_confidence a);
     sr_generated_at := as_generated_at a |}.

Definition with_summary (st : State) (a : AiSummary) : State :=
  let k := as_place_id a in
  {| restaurants_tbl := restaurants_tbl st;
     summaries_tbl :=
       <[k := summary_row (summaries_tbl st !! k) a]> (summaries_tbl st);
     calls := calls st |}.

(** [from('restaurant_ai_summaries').upsert(a, { onConflict: 'place_id' })] *)
Definition upsert_summary (a : AiSummary) : M unit :=
  fun st => (Returned tt, with_summary st a).

(** ** Step 1: the location *)

Definition resolve_location (W : World) (location : string) : M Coordinates :=
  if Js.includes "," location && Js.coordinate_pattern (Js.trim location) then
    match List.map Js.parseFloat (Js.split "," location) with
    | Some lat :: Some lng :: _ => ret {| lat := lat; lng := lng |}
    | _ => throw InvalidCoordinates
    end
  else
    geocodeData <- fetch_json (EvGeocode location) (geocode_api W location) ;;
    match String.eqb (geo_status geocodeData) "OK", geo_results geocodeData with
    | true, first :: _ => ret (gr_location first)
    | _, _ =>
        if String.eqb (geo_status geocodeData) "ZERO_RESULTS"
        then throw (LocationNotFound location)
        else throw (GeocodingError (geo_status geocodeData))
    end.

(** ** Step 3: one candidate *)

Definition photo_url (key : string) (photo : Photo) : string :=
  "https://maps.googleapis.com/maps/api/place/photo?maxwidth=800&photo_reference="
    +:+ photo_reference photo +:+ "&key=" +:+ key.

Definition restaurantData_of (W : World) (key : string) (details : PlaceDetails)
  : RestaurantData :=
  {| rd_place_id := pd_place_id details;
     rd_name := pd_name details;
     rd_rating := pd_rating details;
     rd_price_level := pd_price_level details;
     rd_formatted_address := pd_formatted_address details;
     rd_location := pd_location details;
     rd_photos :=
       match pd_photos details with
       | Some l => List.map (photo_url key) (firstn 3 l)
       | None => []
       end;
     rd_phone_number := pd_formatted_phone_number details;
     rd_website := pd_website details;
     rd_types := pd_types details;
     rd_reviews := match pd_reviews details with Some l => l | None => [] end;
     rd_cached_at := Date_now W |}.

(** [review.text && review.text.length > 20] *)
Definition qualifying (review : Review) : bool :=
  negb (String.eqb (review_text review) "")
  && (20 <? String.length (review_text review))%nat.

Definition reviewTexts (reviews : list Review) : list string :=
  List.map review_text (firstn 12 (List.filter qualifying reviews)).

Definition analysisPrompt (req : SearchParams) (rd : RestaurantData)
  (texts : list string) : Prompt :=
  {| pr_place_id := rd_place_id rd;
     pr_name := rd_name rd;
     pr_rating := rd_rating rd;
     pr_price_level := rd_price_level rd;
     pr_cuisine := rd_types rd;
     pr_address := rd_formatted_address rd;
     pr_reviews := texts;
     pr_veg_only := default false (veg_only req);
     pr_jain_food := default false (jain_food req);
     pr_menu := default [] (menu req) |}.

(** [responseText.replace(/```json\n?/g, '').replace(/```\n?/g, '').trim()] *)
Definition cleanJson (responseText : string) : string :=
  Js.trim (Js.remove_all "```" 0 (Js.remove_all "```json" 0 responseText)).

Definition aiSummary_of (W : World) (analysis : GeminiAnalysis) : AiSummary :=
  {| as_place_id := ga_place_id analysis;
     as_rank_score :=
       Js.Math_max (Js.Finite 0) (Js.Math_min (Js.Finite 100) (ga_rank_score analysis));
     as_short_summary := ga_short_summary analysis;
     as_pros := match ga_pros analysis with JArr l => l | _ => [] end;
     as_cons := match ga_cons analysis with JArr l => l | _ => [] end;
     as_top_positive_quote := ga_top_positive_quote analysis;
     as_top_negative_quote := ga_top_negative_quote analysis;
     as_confidence :=
       Js.Math_max (Js.Finite 0) (Js.Math_min (Js.Finite 1) (ga_confidence analysis));
     as_generated_at := Date_now W |}.

(** The summarisation call with its two nested [try] blocks: whatever
    goes wrong leaves [aiSummary] undefined. *)
Definition generate_summary (W : World) (req : SearchParams)
  (rd : RestaurantData) (texts : list string) : M (option AiSummary) :=
  let prompt := analysisPrompt req rd texts in
  try_catch
    (geminiData <- fetch_json (EvGenerate prompt) (generate_api W prompt) ;;
     match candidates geminiData with
     | Some (first :: _) =>
         match cand_text first with
         | None => throw (TypeError "Cannot read properties of undefined")
         | Some responseText =>
             match JSON_parse W (cleanJson responseText) with
             | None => ret None
             | Some analysis =>
                 let aiSummary := aiSummary_of W analysis in
                 upsert_summary aiSummary ;;;
                 ret (Some aiSummary)
             end
         end
     | _ => ret None
     end)
    (fun _ => ret None).

Definition view_of_row (row : SummaryRow) : AiSummaryView :=
  {| rank_score := sr_rank_score row;
     short_summary := sr_short_summary row;
     pros := sr_pros row;
     cons := sr_cons row;
     top_positive_quote := sr_top_positive_quote row;
     top_negative_quote := sr_top_negative_quote row;
     confidence := sr_confidence row |}.

Definition view_of_summary (a : AiSummary) : AiSummaryView :=
  {| rank_score := Js.JSON_number (as_rank_score a);
     short_summary := as_short_summary a;
     pros := as_pros a;
     cons := as_cons a;
     top_positive_quote := as_top_positive_quote a;
     top_negative_quote := as_top_negative_quote a;
     confidence := Js.JSON_number (as_confidence a) |}.

(** Cache first, then the details call; [None] is the [return null] of a
    details answer whose status is not OK. *)
Definition get_restaurantData (W : World) (key : string) (place : Place)
  : M (option RestaurantData) :=
  cachedRestaurant <- select_restaurant W (pl_place_id place) ;;
  match cachedRestaurant with
  | Some row => ret (Some row)
  | None =>
      detailsData <-
        fetch_json (EvDetails (pl_place_id place))
                   (details_api W (pl_place_id place)) ;;
      if negb (String.eqb (details_status detailsData) "OK") then ret None
      else
        match details_result detailsData with
        | None => throw (TypeError "Cannot read properties of undefined")
        | Some details =>
            let restaurantData := restaurantData_of W key details in
            upsert_restaurant restaurantData ;;;
            ret (Some restaurantData)
        end
  end.

(** Step 4 of the source: the cached summary, or a generated one when
    there are reviews and some of them qualify. *)
Definition get_aiSummary (W : World) (req : SearchParams)
  (restaurantData : RestaurantData) : M (option AiSummaryView) :=
  cachedSummary <- select_summary W (rd_place_id restaurantData) ;;
  match cachedSummary with
  | Some row => ret (Some (view_of_row row))
  | None =>
      if (0 <? length (rd_reviews restaurantData))%nat then
        let texts := reviewTexts (rd_reviews restaurantData) in
        if (0 <? length texts)%nat then
          aiSummary <- generate_summary W req restaurantData texts ;;
          ret (option_map view_of_summary aiSummary)
        else ret None
      else ret None
  end.

Definition result_of (restaurantData : RestaurantData)
  (aiSummary : option AiSummaryView) : Restaurant :=
  {| id := rd_place_id restaurantData;
     place_id := rd_place_id restaurantData;
     name := rd_name restaurantData;
     rating := rd_rating restaurantData;
     price_level := rd_price_level restaurantData;
     formatted_address := rd_formatted_address restaurantData;
     r_location := rd_location restaurantData;
     photos := rd_photos restaurantData;
     phone_number := rd_phone_number restaurantData;
     website := rd_website restaurantData;
     types := rd_types restaurantData;
     ai_summary := aiSummary |}.

(** The body of [placesData.results.slice(0, 25).map(async (place) => ..)]:
    [None] is [null]. *)
Definition process_place (W : World) (key : string) (req : SearchParams)
  (place : Place) : M (option Restaurant) :=
  try_catch
    (found <- get_restaurantData W key place ;;
     match found with
     | None => ret None
     | Some restaurantData =>
         aiSummary <- get_aiSummary W req restaurantData ;;
         ret (Some (result_of restaurantData aiSummary))
     end)
    (fun _ => ret None).

(** [.filter(Boolean)] on a list of objects and [null]s. *)
Fixpoint filter_Boolean {A} (l : list (option A)) : list A :=
  match l with
  | [] => []
  | Some x :: l' => x :: filter_Boolean l'
  | None :: l' => filter_Boolean l'
  end.

(** ** Step 5: scoring and ranking *)

(** The accumulator [totalScore] at the end of the callback, with its
    additions, divisions and multiplications carried out exactly; the
    callback on double-precision numbers is [Binary64.totalScore]
    below. *)
Definition totalScore (max_price : Q) (r : Restaurant) : Q :=
  let totalScore := 0%Q in
  let totalScore :=
    match rating r with
    | Some x => if Js.truthy x then (totalScore + (x / 5) * 50)%Q else totalScore
    | None => totalScore
    end in
  let totalScore :=
    match ai_summary r ≫= rank_score with
    | Some x => if Js.truthy x then (totalScore + (x / 100) * 30)%Q else totalScore
    | None => totalScore
    end in
  let totalScore :=
    match price_level r with
    | Some p =>
        if Js.truthy p then
          let priceFit := (1 - Qabs (p - max_price) / 4)%Q in
          (totalScore + priceFit * 20)%Q
        else totalScore
    | None => totalScore
    end in
  totalScore.

Definition score (max_price : Q) (r : Restaurant) : RankedRestaurant :=
  {| restaurant := r; total_score := Js.Math_round (totalScore max_price r) |}.

(** The comparator [(a, b) => b.total_score - a.total_score]. *)
Definition compare_score (a b : RankedRestaurant) : Z :=
  total_score b - total_score a.

(** [Array.prototype.sort] is a stable sort: an element moves behind
    another one only when the comparator is positive. *)
Fixpoint sort_insert (x : RankedRestaurant) (l : list RankedRestaurant)
  : list RankedRestaurant :=
  match l with
  | [] => [x]
  | y :: l' =>
      if 0 <? compare_score x y then y :: sort_insert x l' else x :: y :: l'
  end.

Fixpoint sort (l : list RankedRestaurant) : list RankedRestaurant :=
  match l with
  | [] => []
  | x :: l' => sort_insert x (sort l')
  end.

Definition rankedRestaurants (max_price : Q) (restaurants : list Restaurant)
  : list RankedRestaurant :=
  sort (List.map (score max_price) restaurants).

(** ** The handler *)

Inductive Body :=
| NoBody
| SearchOk (restaurants : list RankedRestaurant) (search_location : Coordinates)
    (total_found : Z)
| SearchFailed (error : string) (restaurants : list RankedRestaurant)
    (total_found : Z).

Record Response := { status : Z; body : Body }.

Record Request := { method : string; json : SearchParams }.

(** [!key]: undefined or the empty string. *)
Definition missing (key : option string) : bool :=
  match key with
  | Some k => String.eqb k ""
  | None => true
  end.

(** The parameters of the nearby search; [&maxprice=] is only sent below 4. *)
Definition places_query (req : SearchParams) (coordinates : Coordinates)
  : PlacesQuery :=
  let max_price := default 4%Q (max_price req) in
  {| pq_location := coordinates;
     pq_radius := default 5000%Q (radius req);
     pq_maxprice :=
       if negb (Qle_bool 4 max_price) then Some max_price else None |}.

(** Step 3 for all candidates: at most 25 of them, in order. *)
Definition enrich (W : World) (req : SearchParams) (places : list Place)
  : M (list (option Restaurant)) :=
  let googleApiKey := default EmptyString (GOOGLE_PLACES_API_KEY W) in
  mapM (process_place W googleApiKey req) (firstn 25 places).

(** The [try] block of the handler, up to the successful body. *)
Definition search_restaurants (W : World) (req : SearchParams) : M Body :=
  if missing (GOOGLE_PLACES_API_KEY W) || missing (GEMINI_API_KEY W)
  then throw MissingCredentials
  else
    let max_price := default 4%Q (max_price req) in
    coordinates <- resolve_location W (location req) ;;
    let query := places_query req coordinates in
    placesData <- fetch_json (EvNearbySearch query) (nearbysearch_api W query) ;;
    if negb (String.eqb (places_status placesData) "OK")
    then throw (PlacesSearchError (places_status placesData))
    else
      results <- enrich W req (places_results placesData) ;;
      let restaurants := filter_Boolean results in
      let ranked := rankedRestaurants max_price restaurants in
      ret (SearchOk ranked coordinates (Z.of_nat (length ranked))).

Definition serve (W : World) (req : Request) (st : State) : Response * State :=
  if String.eqb (method req) "OPTIONS" then ({| status := 200; body := NoBody |}, st)
  else
    match search_restaurants W (json req) st with
    | (Returned ok, st') => ({| status := 200; body := ok |}, st')
    | (Thrown e, st') =>
        ({| status := 500; body := SearchFailed (message e) [] 0 |}, st')
    end.

(** ** The score in the words of the specification *)

(** price_fit = 1 - |price_level - requested max_price| / 4, and 0 if
    price_level is absent. *)
Definition spec_price_fit (max_price : Q) (price_level : option Q) : Q :=
  match price_level with
  | Some p => (1 - Qabs (p - max_price) / 4)%Q
  | None => 0%Q
  end.

(** (rating/5 x 50) + (ai_rank_score/100 x 30, or 0 if the summary is
    absent) + (price_fit x 20); an absent rating contributes 0. *)
Definition spec_total_score (max_price : Q) (r : Restaurant) : Q :=
  ((match rating r with Some x => (x / 5) * 50 | None => 0 end)
   + (match ai_summary r ≫= rank_score with Some x => (x / 100) * 30 | None => 0 end)
   + spec_price_fit max_price (price_level r) * 20)%Q.

(** ** The score in double precision *)

(** The callback of the ranking step on IEEE 754 binary64 numbers, which
    is what the runtime computes with. The operations are those of the
    standard library's specification of floating-point arithmetic, at
    precision 53 and maximal exponent 1024, rounding to nearest, ties to
    even. *)
Module Binary64.

Definition float : Type := spec_float.

Definition prec : Z := 53.
Definition emax : Z := 1024.

Definition add : float -> float -> float := SFadd prec emax.
Definition sub : float -> float -> float := SFsub prec emax.
Definition mul : float -> float -> float := SFmul prec emax.
Definition div : float -> float -> float := SFdiv prec emax.

(** [Math.abs] *)
Definition Math_abs : float -> float := SFabs.

(** An integer literal. *)
Definition of_Z (n : Z) : float := binary_normalize prec emax n 0 false.

(** The rational a finite number denotes, in lowest terms. *)
Definition to_Q (x : float) : option Q :=
  match x with
  | S754_zero _ => Some 0%Q
  | S754_finite s m e =>
      let n := if s then Z.neg m else Z.pos m in
      Some (Qred (match e with
                  | Z.neg k => n # (2 ^ k)
                  | _ => inject_Z (n * 2 ^ e)
                  end))
  | _ => None
  end.



(** Truthiness: everything but 0, -0 and NaN. *)
Definition truthy (x : float) : bool :=
  match x with
  | S754_zero _ | S754_nan => false
  | _ => true
  end.

(** [Math.round]: the integer nearest to [x], halves towards plus
    infinity, computed exactly; -0 for [x] from -0.5 up to -0. NaN, the
    infinities and the zeros are returned as they are. *)
Definition Math_round (x : float) : float :=
  match x with
  | S754_finite s m e =>
      let n := if s then Z.neg m else Z.pos m in
      let r :=
        match e with
        | Z.neg k => (2 * n + 2 ^ Z.pos k) / 2 ^ (Z.pos k + 1)
        | _ => n * 2 ^ e
        end in
      if r =? 0 then S754_zero s else of_Z r
  | _ => x
  end.

(** The accumulator [totalScore] at the end of the callback. [rating] is
    [restaurant.rating], [rank_score] is [restaurant.ai_summary?.rank_score]
    and [price_level] is [restaurant.price_level]; [None] is a value that
    is undefined or null. *)
Definition totalScore (max_price : float)
  (rating rank_score price_level : option float) : float :=
  let totalScore := of_Z 0 in
  let totalScore :=
    match rating with
    | Some x =>
        if truthy x then add totalScore (mul (div x (of_Z 5)) (of_Z 50))
        else totalScore
    | None => totalScore
    end in
  let totalScore :=
    match rank_score with
    | Some x =>
        if truthy x then add totalScore (mul (div x (of_Z 100)) (of_Z 30))
        else totalScore
    | None => totalScore
    end in
  let totalScore :=
    match price_level with
    | Some p =>
        if truthy p then
          let priceFit := sub (of_Z 1) (div (Math_abs (sub p max_price)) (of_Z 4)) in
          add totalScore (mul priceFit (of_Z 20))
        else totalScore
    | None => totalScore
    end in
  totalScore.

(** [total_score: Math.round(totalScore)] *)
Definition total_score (max_price : float)
  (rating rank_score price_level : option float) : float :=
  Math_round (totalScore max_price rating rank_score price_level).

(** The formula of the specification, evaluated in the same arithmetic,
    from left to right: price_fit = 1 - |price_level - max_price| / 4, and
    0 if price_level is absent. *)
Definition spec_price_fit (max_price : float) (price_level : option float)
  : float :=
  match price_level with
  | Some p => sub (of_Z 1) (div (Math_abs (sub p max_price)) (of_Z 4))
  | None => of_Z 0
  end.

(** (rating/5 x 50) + (ai_rank_score/100 x 30, or 0 if absent)
    + (price_fit x 20) *)
Definition spec_total_score (max_price : float)
  (rating rank_score price_level : option float) : float :=
  add (add (match rating with
            | Some x => mul (div x (of_Z 5)) (of_Z 50)
            | None => of_Z 0
            end)
           (match rank_score with
            | Some x => mul (div x (of_Z 100)) (of_Z 30)
            | None => of_Z 0
            end))
      (mul (spec_price_fit max_price price_level) (of_Z 20)).

(** The number nearest to the decimal [a / b], for integers that are
    numbers themselves (below 2^53): the division rounds once. *)
Definition decimal (a b : Z) : float := div (of_Z a) (of_Z b).

End Binary64.

(** [r] with its price level removed. *)
Definition without_price_level (r : Restaurant) : Restaurant :=
  {| id := id r;
     place_id := place_id r;
     name := name r;
     rating := rating r;
     price_level := None;
     formatted_address := formatted_address r;
     r_location := r_location r;
     photos := photos r;
     phone_number := phone_number r;
     website := website r;
     types := types r;
     ai_summary := ai_summary r |}.

(** ** Vocabulary of the properties *)

(** The details call for this candidate answers OK with a result. *)
Definition details_available (W : World) (place : Place) : Prop :=
  exists details,
    details_api W (pl_place_id place)
    = FetchJson {| details_status := "OK"; details_result := Some details |}.

(** An optional number lies in a range when it is there. *)
Definition in_range (lo hi : Q) (o : option Q) : Prop :=
  match o with
  | Some x => (lo <= x /\ x <= hi)%Q
  | None => True
  end.



(** A row of the summaries table respects the bounds of its columns:
    the CHECK constraints of the schema, which a NULL passes. *)
Definition in_bounds (row : SummaryRow) : Prop :=
  in_range 0 100 (sr_rank_score row) /\ in_range 0 1 (sr_confidence row).

(** What a run may do to the state between [st] and [st']: a venue row
    is left alone or replaced by one stamped now; a summary row is left
    alone or replaced by the upsert of an object built by [aiSummary_of];
    calls are only added, and a details call is only made for a key that
    had no fresh venue row. *)
Record step (W : World) (st st' : State) : Prop := {
  step_venues :
    forall k,
      restaurants_tbl st' !! k = restaurants_tbl st !! k
      \/ exists row,
           restaurants_tbl st' !! k = Some row /\ rd_cached_at row = Date_now W;
  step_summaries :
    forall k,
      summaries_tbl st' !! k = summaries_tbl st !! k
      \/ exists old analysis,
           summaries_tbl st' !! k
           = Some (summary_row old (aiSummary_of W analysis));
  step_calls :
    exists new,
      calls st' = calls st ++ new
      /\ forall k, In (EvDetails k) new -> fresh_venue W st k = None
}.

(** The calls a run added to the log. *)
Definition new_calls (st st' : State) : list Event :=
  skipn (length (calls st)) (calls st').

Definition is_generate (e : Event) : bool :=
  match e with EvGenerate _ => true | _ => false end.

Definition ge_score (a b : RankedRestaurant) : Prop :=
  total_score b <= total_score a.

Definition has_score (s : Z) (x : RankedRestaurant) : bool :=
  total_score x =? s.

(** The string starts like a number: a digit, or a minus and a digit. *)
Definition heads_number (s : string) : bool :=
  match s with
  | String c r =>
      if Ascii.eqb c "-" then
        match r with
        | String d _ => Js.is_digit d
        | EmptyString => false
        end
      else Js.is_digit c
  | EmptyString => false
  end.

(** The first two fields of a split both start like a number, the first
    one after white space. *)
Definition fields_ok (l : list string) : bool :=
  match l with
  | w1 :: w2 :: _ => heads_number (Js.trim_start w1) && heads_number w2
  | _ => false
  end.

(** The same for a string that has no white space in front. *)
Definition fields_tight (l : list string) : bool :=
  match l with
  | w1 :: w2 :: _ => heads_number w1 && heads_number w2
  | _ => false
  end.

Definition second_ok (l : list string) : bool :=
  match l with
  | _ :: w2 :: _ => heads_number w2
  | _ => false
  end.

(** The string starts with a number of the pattern, a comma, and the
    start of a number. *)
Definition loose_pattern (s : string) : bool :=
  match Js.match_decimal s with
  | Some (String c r) => Ascii.eqb c "," && heads_number r
  | _ => false
  end.

(** ** A concrete world, for evaluating the handler *)

Module Demo.

Local Open Scope Q_scope.

Definition LF : string := String "010" EmptyString.

Definition centre : Coordinates := {| lat := 1297 # 100; lng := 7759 # 100 |}.

Definition long_review : Review :=
  {| review_text := "Crisp dosa, quick service, fair prices.";
     review_rating := 5; review_time := 1700000000 |}.

Definition short_review : Review :=
  {| review_text := "Nice place"; review_rating := 4; review_time := 1700000001 |}.

Definition empty_review : Review :=
  {| review_text := ""; review_rating := 3; review_time := 1700000002 |}.

Definition venue (k n : string) (rt pl : option Q) (rv : option (list Review))
  : PlaceDetails :=
  {| pd_place_id := k;
     pd_name := n;
     pd_rating := rt;
     pd_price_level := pl;
     pd_formatted_address := "MG Road";
     pd_location := centre;
     pd_photos := Some [ {| photo_reference := "ph1" |} ];
     pd_formatted_phone_number := None;
     pd_website := None;
     pd_types := ["restaurant"%string];
     pd_reviews := rv |}.

Definition ok (d : PlaceDetails) : Fetched DetailsData :=
  FetchJson {| details_status := "OK"; details_result := Some d |}.

Definition details (k : string) : Fetched DetailsData :=
  if String.eqb k "p1" then
    ok (venue "p1" "Udupi Grand" (Some (9 # 2)) (Some 2) (Some [long_review; short_review]))
  else if String.eqb k "p2" then
    FetchJson {| details_status := "NOT_FOUND"; details_result := None |}
  else if String.eqb k "p3" then
    ok (venue "p3" "Corner Cafe" (Some 4) None (Some [short_review; empty_review]))
  else if String.eqb k "p5" then
    ok (venue "p5" "Free Kitchen" (Some 4) (Some 0) None)
  else FetchThrows "connection reset".

Definition answer_text : string :=
  "```json" +:+ LF +:+ "{p1}" +:+ LF +:+ "```".

Definition generate (p : Prompt) : Fetched GeminiData :=
  if String.eqb (pr_place_id p) "p1" then
    FetchJson {| candidates := Some [ {| cand_text := Some answer_text |} ] |}
  else FetchThrows "connection reset".

Definition analysis : GeminiAnalysis :=
  {| ga_place_id := "p1";
     ga_rank_score := Js.Finite 150;
     ga_short_summary := "Reliable south Indian food.";
     ga_pros := JArr ["quick service"%string];
     ga_cons := JNull;
     ga_dishes_to_try := Some ["Masala Dosa"%string];
     ga_matching_menu_items := Some ["Idli"%string];
     ga_top_positive_quote := Some "Crisp dosa"%string;
     ga_top_negative_quote := None;
     ga_confidence := Js.Finite (3 # 2) |}.

Definition parse (s : string) : option GeminiAnalysis :=
  if String.eqb s "{p1}" then Some analysis else None.

Definition geocode (address : string) : Fetched GeocodeData :=
  if String.eqb address "Bengaluru" then
    FetchJson {| geo_status := "OK";
                 geo_results := [ {| gr_formatted_address := "Bengaluru, India";
                                     gr_location := centre |} ] |}
  else FetchJson {| geo_status := "ZERO_RESULTS"; geo_results := [] |}.

Definition place (k : string) : Place := {| pl_place_id := k; pl_name := k |}.

(** The nearby search answers five candidates, unless it is asked for
    a radius of 1, where the provider reports a failure. *)
Definition nearby (q : PlacesQuery) : Fetched PlacesData :=
  if Qeq_bool (pq_radius q) 1 then
    FetchJson {| places_status := "OVER_QUERY_LIMIT"; places_results := [] |}
  else
    FetchJson {| places_status := "OK";
                 places_results := List.map place ["p1"; "p2"; "p3"; "p4"; "p5"]%string |}.

Definition now : Z := 1700000000000%Z.

Definition world : World :=
  {| GOOGLE_PLACES_API_KEY := Some "gk"%string;
     GEMINI_API_KEY := Some "mk"%string;
     Date_now := now;
     geocode_api := geocode;
     nearbysearch_api := nearby;
     details_api := details;
     generate_api := generate;
     JSON_parse := parse |}.

Definition params (loc : string) (r : option Q) : SearchParams :=
  {| location := loc; radius := r; max_price := None; cuisine := None;
     veg_only := None; jain_food := None; menu := None |}.

Definition request : SearchParams := params "Bengaluru" None.

Definition empty_state : State :=
  {| restaurants_tbl := ∅; summaries_tbl := ∅; calls := [] |}.

(** A venue row cached [age] milliseconds ago. *)
Definition cached_row (k : string) (age : Z) : RestaurantData :=
  {| rd_place_id := k;
     rd_name := "Udupi Grand (cached)";
     rd_rating := Some 4;
     rd_price_level := Some 2;
     rd_formatted_address := "MG Road";
     rd_location := centre;
     rd_photos := [];
     rd_phone_number := None;
     rd_website := None;
     rd_types := [];
     rd_reviews := [];
     rd_cached_at := (now - age)%Z |}.

Definition state_with_venue (k : string) (age : Z) : State :=
  {| restaurants_tbl := {[ k := cached_row k age ]};
     summaries_tbl := ∅;
     calls := [] |}.

Definition summary_of (k : string) : SummaryRow :=
  {| sr_place_id := k;
     sr_rank_score := Some 70;
     sr_short_summary := "Cosy, slow on weekends.";
     sr_pros := [];
     sr_cons := [];
     sr_dishes_to_try := [];
     sr_matching_menu_items := [];
     sr_top_positive_quote := None;
     sr_top_negative_quote := None;
     sr_confidence := Some (1 # 2);
     sr_generated_at := (now - 1000)%Z |}.

Definition state_with_summary (k : string) : State :=
  {| restaurants_tbl := ∅;
     summaries_tbl := {[ k := summary_of k ]};
     calls := [] |}.

(** A bare result, for the scoring examples. *)
Definition scored (rt : option Q) (ai : option Q) (pl : option Q) : Restaurant :=
  {| id := "x"; place_id := "x"; name := "x";
     rating := rt;
     price_level := pl;
     formatted_address := ""; r_location := centre; photos := [];
     phone_number := None; website := None; types := [];
     ai_summary :=
       option_map
         (fun q => {| rank_score := Some q; short_summary := ""; pros := []; cons := [];
                      top_positive_quote := None; top_negative_quote := None;
                      confidence := Some 1 |}) ai |}.

(** The run of the request on the empty cache. *)
Definition final_state : State :=
  snd (search_restaurants world request empty_state).

Definition ranked : list RankedRestaurant :=
  match fst (search_restaurants world request empty_state) with
  | Returned (SearchOk rs _ _) => rs
  | _ => []
  end.

Definition top : RankedRestaurant :=
  score 4 (result_of
             (restaurantData_of world "gk"
                (venue "p1" "Udupi Grand" (Some (9 # 2)) (Some 2)
                   (Some [long_review; short_review])))
             (Some (view_of_summary (aiSummary_of world analysis)))).

End Demo.

(** ** Vocabulary of the further properties *)

Definition is_geocode (e : Event) : bool :=
  match e with EvGeocode _ => true | _ => false end.

Definition is_nearby (e : Event) : bool :=
  match e with EvNearbySearch _ => true | _ => false end.

Definition is_details (e : Event) : bool :=
  match e with EvDetails _ => true | _ => false end.

(** How many calls of one kind a log holds. *)
Definition count_calls (kind : Event -> bool) (l : list Event) : nat :=
  length (List.filter kind l).

(** The calls the callback of one candidate may add: at most one details
    call, for the candidate's place identifier, then at most one
    summarisation call, whose prompt is built from a venue record that
    has a qualifying review. *)
Definition candidate_calls (req : SearchParams) (place : Place)
  (new : list Event) : Prop :=
  exists d g,
    new = d ++ g
    /\ (d = [] \/ d = [EvDetails (pl_place_id place)])
    /\ (g = []
        \/ exists rd,
             reviewTexts (rd_reviews rd) <> []
             /\ g = [EvGenerate (analysisPrompt req rd (reviewTexts (rd_reviews rd)))]).

(** The venue row of the candidate and the summary row of that venue are
    both in the cache and fresh. *)
Definition fully_cached (W : World) (st : State) (place : Place) : Prop :=
  exists row srow,
    fresh_venue W st (pl_place_id place) = Some row
    /\ fresh_summary W st (rd_place_id row) = Some srow.

(** The details answer OK with this record. *)
Definition details_answer (W : World) (k : string) (details : PlaceDetails) : Prop :=
  details_api W k
  = FetchJson {| details_status := "OK"; details_result := Some details |}.

(** The generator answers the prompt with a text that parses to this
    analysis. *)
Definition generator_answer (W : World) (p : Prompt) (analysis : GeminiAnalysis)
  : Prop :=
  exists data first rest text,
    generate_api W p = FetchJson data
    /\ candidates data = Some (first :: rest)
    /\ cand_text first = Some text
    /\ JSON_parse W (cleanJson text) = Some analysis.

(** More concrete worlds. *)
Module Demo2.

Local Open Scope Q_scope.

(** A provider that finds one candidate. *)
Definition nearby_one (q : PlacesQuery) : Fetched PlacesData :=
  FetchJson {| places_status := "OK"; places_results := [Demo.place "p1"] |}.

Definition world_one : World :=
  {| GOOGLE_PLACES_API_KEY := Some "gk"%string;
     GEMINI_API_KEY := Some "mk"%string;
     Date_now := Demo.now;
     geocode_api := Demo.geocode;
     nearbysearch_api := nearby_one;
     details_api := Demo.details;
     generate_api := Demo.generate;
     JSON_parse := Demo.parse |}.

(** Venue p1 and its summary are both cached. *)
Definition warm_state : State :=
  {| restaurants_tbl := {[ "p1"%string := Demo.cached_row "p1" 1000 ]};
     summaries_tbl := {[ "p1"%string := Demo.summary_of "p1" ]};
     calls := [] |}.

(** A details provider whose records carry another place identifier than
    the one it was asked for. *)
Definition details_other (k : string) : Fetched DetailsData :=
  Demo.ok (Demo.venue "zz" "Elsewhere" (Some 4) (Some 2) None).

Definition world_other : World :=
  {| GOOGLE_PLACES_API_KEY := Some "gk"%string;
     GEMINI_API_KEY := Some "mk"%string;
     Date_now := Demo.now;
     geocode_api := Demo.geocode;
     nearbysearch_api := nearby_one;
     details_api := details_other;
     generate_api := Demo.generate;
     JSON_parse := Demo.parse |}.

Definition p1_details : PlaceDetails :=
  Demo.venue "p1" "Udupi Grand" (Some (9 # 2)) (Some 2)
    (Some [Demo.long_review; Demo.short_review]).






Definition world_no_key : World :=
  {| GOOGLE_PLACES_API_KEY := Some "gk"%string;
     GEMINI_API_KEY := Some EmptyString;
     Date_now := Demo.now;
     geocode_api := Demo.geocode;
     nearbysearch_api := nearby_one;
     details_api := Demo.details;
     generate_api := Demo.generate;
     JSON_parse := Demo.parse |}.

End Demo2.

(** Every cached venue row has at most three photos. *)
Definition photos_capped (st : State) : Prop :=
  forall k row, restaurants_tbl st !! k = Some row -> (length (rd_photos row) <= 3)%nat.

(** Every cached summary row respects the bounds of its columns. *)
Definition summaries_in_bounds (st : State) : Prop :=
  forall k row, summaries_tbl st !! k = Some row -> in_bounds row.

(** The summary shown with a result respects the bounds. *)
Definition view_in_bounds (r : Restaurant) : Prop :=
  forall s,
    ai_summary r = Some s ->
    in_range 0 100 (rank_score s) /\ in_range 0 1 (confidence s).

(** The line feed. *)
Definition LF : string := String "010" EmptyString.

(** ** The cleanup function of the schema *)

(** [public.cleanup_old_cache()]: both DELETE statements, run at instant
    [now]; a row stays when its stamp is not before [now - 24 hours]. *)
Definition cleanup_old_cache (now : Z) (st : State) : State :=
  {| restaurants_tbl :=
       filter (fun kv => now - DAY_MS <= rd_cached_at (snd kv)) (restaurants_tbl st);
     summaries_tbl :=
       filter (fun kv => now - DAY_MS <= sr_generated_at (snd kv)) (summaries_tbl st);
     calls := calls st |}.


(** ** The page that calls the handler and shows its results *)

Module Frontend.

(** [toggleCuisine]: the new value of [filters.cuisine]. *)
Definition toggleCuisine (cuisine : string) (prev : list string) : list string :=
  if existsb (String.eqb cuisine) prev
  then List.filter (fun c => negb (String.eqb c cuisine)) prev
  else prev ++ [cuisine].

(** [s.includes(needle)] *)
Fixpoint includes_str (needle s : string) : bool :=
  if String.prefix needle s then true
  else match s with
       | String _ s' => includes_str needle s'
       | EmptyString => false
       end.

(** The string is made of ASCII characters. *)
Fixpoint is_ascii (s : string) : bool :=
  match s with
  | String c s' => (nat_of_ascii c <? 128)%nat && is_ascii s'
  | EmptyString => true
  end.

(** [toUpperCase] of one ASCII character: a-z become A-Z. Beyond ASCII
    the upper case of a character can be two characters (U+00DF) or a
    character above 255 (U+00B5, U+00FF), which this alphabet does not
    have; what is stated about labels is stated for ASCII types, which
    is what the provider's types are. *)
Definition toUpperCase (c : ascii) : ascii :=
  let n := nat_of_ascii c in
  if ((97 <=? n) && (n <=? 122))%nat then ascii_of_nat (n - 32) else c.

(** [word.charAt(0).toUpperCase() + word.slice(1)] *)
Definition capitalize (word : string) : string :=
  match word with
  | String c rest => String (toUpperCase c) rest
  | EmptyString => EmptyString
  end.

(** [words.join(sep)] *)
Fixpoint join (sep : string) (words : list string) : string :=
  match words with
  | [] => EmptyString
  | [w] => w
  | w :: rest => w +:+ sep +:+ join sep rest
  end.

(** The filter of [formatCuisineTypes]. *)
Definition is_food_type (type : string) : bool :=
  negb (existsb (String.eqb type) ["establishment"; "point_of_interest"]%string)
  && negb (includes_str "restaurant" type).

Definition label (type : string) : string :=
  join " " (List.map capitalize (Js.split "_" type)).

(** [formatCuisineTypes]; [None] is an undefined [types]. *)
Definition formatCuisineTypes (types : option (list string)) : list string :=
  match types with
  | Some types => List.map label (firstn 3 (List.filter is_food_type types))
  | None => []
  end.

End Frontend.

(** The characters of the words of a list, counting one separator per
    word. *)
Fixpoint weight (words : list string) : nat :=
  match words with
  | [] => 0%nat
  | w :: rest => (S (String.length w) + weight rest)%nat
  end.

(** Unfolds the monad and the store operations. *)
Ltac run :=
  cbv beta iota delta
    [bind ret throw try_catch fetch_json log_call get_state
     select_restaurant select_summary upsert_restaurant upsert_summary].

(** * Properties *)

Example trim_ex : Js.trim " 12.5,77.6 " = "12.5,77.6"%string.
Proof. reflexivity. Qed.
Example pattern_ex1 : Js.coordinate_pattern "12.97,-77.59" = true.
Proof. reflexivity. Qed.
Example pattern_ex2 : Js.coordinate_pattern "abc,def" = false.
Proof. reflexivity. Qed.
Example pattern_ex3 : Js.coordinate_pattern "12.,7" = true.
Proof. reflexivity. Qed.
Example pattern_ex4 : Js.coordinate_pattern "1.2.3,4" = false.
Proof. reflexivity. Qed.
(** The no-break space is white space: the string is trimmed, matches
    the pattern and is parsed without a lookup. *)
Example trim_nbsp_ex :
  Js.trim (String "160" "12.5,7") = "12.5,7"%string
  /\ snd (resolve_location Demo.world (String "160" "12.5,7") Demo.empty_state)
     = Demo.empty_state
  /\ exists c,
       fst (resolve_location Demo.world (String "160" "12.5,7") Demo.empty_state)
       = Returned c
       /\ (lat c == 25 # 2)%Q /\ (lng c == 7)%Q.
Proof.
  split; [reflexivity|]. split; [reflexivity|].
  eexists. split; [reflexivity|]. split; reflexivity.
Qed.

Example split_ex : Js.split "," "12.5,-7" = ["12.5"; "-7"]%string.
Proof. reflexivity. Qed.
Example parseFloat_ex : Js.parseFloat " -12.25" = Some (- ((12 # 1) + (25 # 100)))%Q.
Proof. reflexivity. Qed.
Example remove_ex :
  Js.remove_all "```json" 0 ("```json" +:+ String "010" "{}" +:+ String "010" "```")
  = ("{}" +:+ String "010" "```")%string.
Proof. reflexivity. Qed.
Example cleanJson_ex : cleanJson Demo.answer_text = "{p1}"%string.
Proof. reflexivity. Qed.
Example round_ex : Js.Math_round (5 # 2) = 3 /\ Js.Math_round (- (5 # 2)) = -2.
Proof. split; reflexivity. Qed.

Example demo_names :
  match search_restaurants Demo.world Demo.request Demo.empty_state with
  | (Returned (SearchOk rs _ n), _) =>
      (List.map (fun x => (name (restaurant x), total_score x)) rs, n)
  | _ => ([], -1)
  end = ([("Udupi Grand", 85); ("Corner Cafe", 40); ("Free Kitchen", 40)]%string, 3).
Proof. vm_compute. reflexivity. Qed.

Example demo_calls :
  List.length (calls (snd (search_restaurants Demo.world Demo.request Demo.empty_state)))
  = 8%nat.
Proof. vm_compute. reflexivity. Qed.

(** ** Scoring *)

Section Scoring.

Local Open Scope Q_scope.

Lemma truthy_false (x : Q) : Js.truthy x = false -> x == 0.
Proof.
  unfold Js.truthy. intros H. apply Qeq_bool_iff.
  destruct (Qeq_bool x 0); [reflexivity | discriminate].
Qed.

Lemma truthy_true (x : Q) : Js.truthy x = true -> ~ x == 0.
Proof.
  unfold Js.truthy. intros H E. apply Qeq_bool_iff in E.
  rewrite E in H. discriminate.
Qed.

Lemma Math_round_comp (x y : Q) : x == y -> Js.Math_round x = Js.Math_round y.
Proof. intros E. unfold Js.Math_round. now rewrite E. Qed.

(** The three guarded additions compute the sum of the specification,
    as long as the price level is not a present 0. *)
Lemma totalScore_spec (max_price : Q) (r : Restaurant) :
  (forall p, price_level r = Some p -> ~ p == 0) ->
  totalScore max_price r == spec_total_score max_price r.
Proof.
  intros Hp. unfold totalScore, spec_total_score, spec_price_fit.
  destruct (rating r) as [x|], (ai_summary r ≫= rank_score) as [s|],
    (price_level r) as [p|];
    repeat match goal with
           | |- context [Js.truthy ?q] =>
               let E := fresh "E" in
               destruct (Js.truthy q) eqn:E;
               [ | apply truthy_false in E ]
           end;
    try (exfalso; eapply Hp; [reflexivity | assumption]);
    repeat match goal with
           | E : ?q == 0 |- _ => rewrite E; clear E
           end;
    field.
Qed.

(** A present price level of 0 adds nothing. *)
Lemma totalScore_price_zero (max_price : Q) (r : Restaurant) (p : Q) :
  price_level r = Some p -> p == 0 ->
  totalScore max_price r = totalScore max_price (without_price_level r).
Proof.
  intros Hp E. unfold totalScore. cbn [price_level rating ai_summary without_price_level].
  rewrite Hp.
  assert (Js.truthy p = false) as ->.
  { unfold Js.truthy. apply Qeq_bool_iff in E. now rewrite E. }
  reflexivity.
Qed.

End Scoring.

(** ** Ranking *)

Section Ranking.

Lemma sort_insert_perm x l : Permutation (sort_insert x l) (x :: l).
Proof.
  induction l as [|y l IH]; cbn.
  - reflexivity.
  - destruct (0 <? compare_score x y).
    + rewrite IH. apply perm_swap.
    + reflexivity.
Qed.

Lemma sort_perm l : Permutation (sort l) l.
Proof.
  induction l as [|x l IH]; cbn.
  - reflexivity.
  - rewrite sort_insert_perm. now constructor.
Qed.

Lemma sort_insert_sorted x l :
  StronglySorted ge_score l -> StronglySorted ge_score (sort_insert x l).
Proof.
  induction 1 as [|y l Hl IH Hy]; cbn.
  - repeat constructor.
  - destruct (0 <? compare_score x y) eqn:E.
    + constructor; [exact IH|].
      apply Z.ltb_lt in E. unfold compare_score in E.
      eapply Permutation_Forall; [symmetry; apply sort_insert_perm|].
      constructor; [unfold ge_score; lia | exact Hy].
    + apply Z.ltb_ge in E. unfold compare_score in E.
      constructor; [now constructor|].
      constructor; [unfold ge_score; lia|].
      eapply List.Forall_impl; [|exact Hy].
      unfold ge_score. intros; lia.
Qed.

Lemma sort_sorted l : StronglySorted ge_score (sort l).
Proof.
  induction l as [|x l IH]; cbn.
  - constructor.
  - now apply sort_insert_sorted.
Qed.

Lemma sort_insert_stable s x l :
  List.filter (has_score s) (sort_insert x l) = List.filter (has_score s) (x :: l).
Proof.
  induction l as [|y l IH]; [reflexivity|].
  cbn [sort_insert]. destruct (0 <? compare_score x y) eqn:E; [|reflexivity].
  apply Z.ltb_lt in E. unfold compare_score in E.
  cbn [List.filter] in *. rewrite IH. unfold has_score.
  destruct (total_score x =? s) eqn:Ex, (total_score y =? s) eqn:Ey;
    try reflexivity.
  apply Z.eqb_eq in Ex, Ey. lia.
Qed.

Lemma sort_stable s l :
  List.filter (has_score s) (sort l) = List.filter (has_score s) l.
Proof.
  induction l as [|x l IH]; [reflexivity|].
  cbn [sort]. rewrite sort_insert_stable. cbn [List.filter]. now rewrite IH.
Qed.

End Ranking.

(** ** The per-candidate pipeline *)

Section Candidate.

Variable W : World.
Variable key : string.
Variable req : SearchParams.

(** The summarisation call always comes back: with nothing and one
    logged call, or with a clamped summary that has been upserted. *)
Lemma generate_summary_cases rd texts st :
  let ev := EvGenerate (analysisPrompt req rd texts) in
  generate_summary W req rd texts st = (Returned None, with_call st ev)
  \/ exists a,
       generate_summary W req rd texts st
       = (Returned (Some (aiSummary_of W a)),
          with_summary (with_call st ev) (aiSummary_of W a)).
Proof.
  intros ev. unfold generate_summary. run.
  destruct (generate_api W (analysisPrompt req rd texts)) as [msg|data];
    [now left|].
  destruct (candidates data) as [[|first rest]|]; [now left| |now left].
  destruct (cand_text first) as [text|]; [|now left].
  destruct (JSON_parse W (cleanJson text)) as [a|]; [|now left].
  right. now exists a.
Qed.

Lemma get_restaurantData_hit place st row :
  fresh_venue W st (pl_place_id place) = Some row ->
  get_restaurantData W key place st = (Returned (Some row), st).
Proof. intros H. unfold get_restaurantData. run. now rewrite H. Qed.

(** On a miss the details call is made and decides. *)
Lemma get_restaurantData_miss place st :
  fresh_venue W st (pl_place_id place) = None ->
  let st1 := with_call st (EvDetails (pl_place_id place)) in
  get_restaurantData W key place st =
  match details_api W (pl_place_id place) with
  | FetchThrows msg => (Thrown (FetchError msg), st1)
  | FetchJson data =>
      if negb (String.eqb (details_status data) "OK") then (Returned None, st1)
      else
        match details_result data with
        | None => (Thrown (TypeError "Cannot read properties of undefined"), st1)
        | Some details =>
            (Returned (Some (restaurantData_of W key details)),
             with_venue st1 (restaurantData_of W key details))
        end
  end.
Proof.
  intros H st1. unfold get_restaurantData. run. rewrite H.
  destruct (details_api W (pl_place_id place)) as [msg|data]; [reflexivity|].
  destruct (negb (String.eqb (details_status data) "OK")); [reflexivity|].
  now destruct (details_result data).
Qed.

Lemma get_aiSummary_cached rd st row :
  fresh_summary W st (rd_place_id rd) = Some row ->
  get_aiSummary W req rd st = (Returned (Some (view_of_row row)), st).
Proof. intros H. unfold get_aiSummary. run. now rewrite H. Qed.

Lemma get_aiSummary_skip rd st :
  fresh_summary W st (rd_place_id rd) = None ->
  reviewTexts (rd_reviews rd) = [] ->
  get_aiSummary W req rd st = (Returned None, st).
Proof.
  intros H E. unfold get_aiSummary. run. rewrite H, E. cbn.
  now destruct (length (rd_reviews rd)).
Qed.

Lemma get_aiSummary_generate rd st :
  fresh_summary W st (rd_place_id rd) = None ->
  reviewTexts (rd_reviews rd) <> [] ->
  get_aiSummary W req rd st =
  match generate_summary W req rd (reviewTexts (rd_reviews rd)) st with
  | (Returned a, st') => (Returned (option_map view_of_summary a), st')
  | (Thrown e, st') => (Thrown e, st')
  end.
Proof.
  intros H E. unfold get_aiSummary. run. rewrite H.
  assert ((0 <? length (rd_reviews rd))%nat = true) as ->.
  { apply Nat.ltb_lt. unfold reviewTexts in E.
    destruct (rd_reviews rd); [now cbn in E | cbn; lia]. }
  assert ((0 <? length (reviewTexts (rd_reviews rd)))%nat = true) as ->.
  { apply Nat.ltb_lt. destruct (reviewTexts (rd_reviews rd)); [easy | cbn; lia]. }
  now destruct (generate_summary W req rd (reviewTexts (rd_reviews rd)) st)
    as [[a|e] st'].
Qed.

(** Step 4 never throws. *)
Lemma get_aiSummary_returns rd st :
  exists v st', get_aiSummary W req rd st = (Returned v, st').
Proof.
  destruct (fresh_summary W st (rd_place_id rd)) as [row|] eqn:H.
  - rewrite (get_aiSummary_cached _ _ _ H). eauto.
  - destruct (reviewTexts (rd_reviews rd)) eqn:E.
    + rewrite (get_aiSummary_skip _ _ H E). eauto.
    + rewrite get_aiSummary_generate; [|exact H|now rewrite E].
      rewrite E.
      destruct (generate_summary_cases rd (s :: l) st) as [G|[a G]];
        rewrite G; eauto.
Qed.

(** The callback is a function of the venue record it resolves. *)
Lemma process_place_found place st rd st1 :
  get_restaurantData W key place st = (Returned (Some rd), st1) ->
  process_place W key req place st =
  match get_aiSummary W req rd st1 with
  | (Returned v, st') => (Returned (Some (result_of rd v)), st')
  | (Thrown e, st') => (Returned None, st')
  end.
Proof.
  intros H. unfold process_place, try_catch, bind at 1. rewrite H.
  unfold bind, ret. now destruct (get_aiSummary W req rd st1) as [[v|e] st'].
Qed.

Lemma process_place_dropped place st o st1 :
  get_restaurantData W key place st = (o, st1) ->
  o <> Returned None -> (forall rd, o <> Returned (Some rd)) ->
  process_place W key req place st = (Returned None, st1).
Proof.
  intros H Hn Hs. unfold process_place, try_catch, bind at 1. rewrite H.
  destruct o as [[rd|]|e]; [now elim (Hs rd) | now elim Hn | reflexivity].
Qed.

Lemma process_place_null place st st1 :
  get_restaurantData W key place st = (Returned None, st1) ->
  process_place W key req place st = (Returned None, st1).
Proof.
  intros H. unfold process_place, try_catch, bind at 1. now rewrite H.
Qed.

(** The callback never rejects. *)
Lemma process_place_returns place st :
  exists res st', process_place W key req place st = (Returned res, st').
Proof.
  destruct (get_restaurantData W key place st) as [[[rd|]|e] st1] eqn:H.
  - rewrite (process_place_found _ _ _ _ H).
    destruct (get_aiSummary_returns rd st1) as (v & st' & G). rewrite G. eauto.
  - rewrite (process_place_null _ _ _ H). eauto.
  - rewrite (process_place_dropped _ _ _ _ H); eauto; congruence.
Qed.

End Candidate.

(** ** What a run does to the state *)

Section Steps.

Variable W : World.

Lemma fresh_now : fresh W (Date_now W) = true.
Proof. unfold fresh, DAY_MS. apply Z.leb_le. lia. Qed.

Lemma step_refl st : step W st st.
Proof.
  split; [now left | now left |].
  exists []. split; [now rewrite app_nil_r | intros k []].
Qed.

Lemma fresh_venue_kept st st' k :
  step W st st' -> fresh_venue W st' k = None -> fresh_venue W st k = None.
Proof.
  intros S H. destruct (step_venues _ _ _ S k) as [E|(row & E & T)].
  - unfold fresh_venue in *. now rewrite <- E.
  - unfold fresh_venue in H. rewrite E, T, fresh_now in H. discriminate.
Qed.

Lemma step_trans st1 st2 st3 :
  step W st1 st2 -> step W st2 st3 -> step W st1 st3.
Proof.
  intros A B. split.
  - intros k. destruct (step_venues _ _ _ B k) as [E|R]; [|now right].
    rewrite E. apply (step_venues _ _ _ A).
  - intros k. destruct (step_summaries _ _ _ B k) as [E|R]; [|now right].
    rewrite E. apply (step_summaries _ _ _ A).
  - destruct (step_calls _ _ _ A) as (n1 & E1 & H1).
    destruct (step_calls _ _ _ B) as (n2 & E2 & H2).
    exists (n1 ++ n2). split; [now rewrite E2, E1, <- app_assoc|].
    intros k Hin. apply in_app_or in Hin as [Hin|Hin]; [now apply H1|].
    eapply fresh_venue_kept; [exact A | now apply H2].
Qed.

(** Logging a call that is not a details call for a fresh key. *)
Lemma step_with_call st e :
  (forall k, e = EvDetails k -> fresh_venue W st k = None) ->
  step W st (with_call st e).
Proof.
  intros H. split; [now left | now left |].
  exists [e]. split; [reflexivity|].
  intros k [->|[]]. now apply H.
Qed.

Lemma step_with_venue st row :
  rd_cached_at row = Date_now W -> step W st (with_venue st row).
Proof.
  intros T. split.
  - intros k. cbn. destruct (decide (rd_place_id row = k)) as [<-|N].
    + right. eexists. rewrite lookup_insert_eq. split; [reflexivity | exact T].
    + left. now rewrite lookup_insert_ne.
  - now left.
  - exists []. split; [cbn; now rewrite app_nil_r | intros k []].
Qed.

Lemma step_with_summary st analysis :
  step W st (with_summary st (aiSummary_of W analysis)).
Proof.
  split.
  - now left.
  - intros k. cbn.
    destruct (decide (ga_place_id analysis = k)) as [<-|N].
    + right. exists (summaries_tbl st !! ga_place_id analysis), analysis.
      now rewrite lookup_insert_eq.
    + left. now rewrite lookup_insert_ne.
  - exists []. split; [cbn; now rewrite app_nil_r | intros k []].
Qed.

Variable key : string.
Variable req : SearchParams.

Lemma generate_summary_step rd texts st :
  step W st (snd (generate_summary W req rd texts st)).
Proof.
  destruct (generate_summary_cases W req rd texts st) as [G|[a G]];
    rewrite G; cbn [snd].
  - apply step_with_call. discriminate.
  - eapply step_trans; [|apply step_with_summary].
    apply step_with_call. discriminate.
Qed.

Lemma get_aiSummary_step rd st :
  step W st (snd (get_aiSummary W req rd st)).
Proof.
  destruct (fresh_summary W st (rd_place_id rd)) as [row|] eqn:H.
  - rewrite (get_aiSummary_cached _ _ _ _ _ H). apply step_refl.
  - destruct (reviewTexts (rd_reviews rd)) eqn:E.
    + rewrite (get_aiSummary_skip _ _ _ _ H E). apply step_refl.
    + rewrite get_aiSummary_generate; [|exact H|now rewrite E].
      pose proof (generate_summary_step rd (reviewTexts (rd_reviews rd)) st) as S.
      now destruct (generate_summary W req rd (reviewTexts (rd_reviews rd)) st)
        as [[a|e] st'].
Qed.

Lemma get_restaurantData_step place st :
  step W st (snd (get_restaurantData W key place st)).
Proof.
  destruct (fresh_venue W st (pl_place_id place)) as [row|] eqn:H.
  - rewrite (get_restaurantData_hit _ _ _ _ _ H). apply step_refl.
  - rewrite (get_restaurantData_miss _ _ _ _ H).
    assert (step W st (with_call st (EvDetails (pl_place_id place)))) as S.
    { apply step_with_call. now intros k [= <-]. }
    destruct (details_api W (pl_place_id place)) as [msg|data]; [exact S|].
    destruct (negb (String.eqb (details_status data) "OK")); [exact S|].
    destruct (details_result data) as [d|]; [|exact S]. cbn [snd].
    eapply step_trans; [exact S | now apply step_with_venue].
Qed.

Lemma process_place_step place st :
  step W st (snd (process_place W key req place st)).
Proof.
  pose proof (get_restaurantData_step place st) as S.
  destruct (get_restaurantData W key place st) as [[[rd|]|e] st1] eqn:H;
    cbn [snd] in S.
  - rewrite (process_place_found _ _ _ _ _ _ _ H).
    pose proof (get_aiSummary_step rd st1) as T.
    destruct (get_aiSummary W req rd st1) as [[v|e] st'];
      cbn [snd] in *; eapply step_trans; eauto.
  - now rewrite (process_place_null _ _ _ _ _ _ H).
  - rewrite (process_place_dropped _ _ _ _ _ _ _ H); [exact S|congruence..].
Qed.

(** Every candidate of the list gets an answer, a candidate whose
    details are available gets a result, and the state only moves by
    [step]s. *)
Lemma process_place_available place st :
  details_available W place ->
  exists r st', process_place W key req place st = (Returned (Some r), st').
Proof.
  intros (d & A).
  assert (exists rd st1,
             get_restaurantData W key place st = (Returned (Some rd), st1))
    as (rd & st1 & H).
  { destruct (fresh_venue W st (pl_place_id place)) as [row|] eqn:F.
    - rewrite (get_restaurantData_hit _ _ _ _ _ F). eauto.
    - rewrite (get_restaurantData_miss _ _ _ _ F), A. cbn. eauto. }
  rewrite (process_place_found _ _ _ _ _ _ _ H).
  destruct (get_aiSummary_returns W req rd st1) as (v & st' & G).
  rewrite G. eauto.
Qed.

Lemma mapM_process_place l st :
  exists results st',
    mapM (process_place W key req) l st = (Returned results, st')
    /\ Forall2 (fun place res => details_available W place -> res <> None)
         l results
    /\ step W st st'.
Proof.
  revert st. induction l as [|place l IH]; intros st.
  - exists [], st. split; [reflexivity|].
    split; [constructor | apply step_refl].
  - pose proof (process_place_step place st) as S.
    destruct (process_place_returns W key req place st) as (res & st1 & P).
    rewrite P in S. cbn [snd] in S.
    destruct (IH st1) as (results & st' & E & F & T).
    exists (res :: results), st'. split; [|split].
    + cbn [mapM]. unfold bind at 1. rewrite P.
      unfold bind at 1. rewrite E. reflexivity.
    + constructor; [|exact F].
      intros A. destruct (process_place_available place st A) as (r & s & Q).
      rewrite Q in P. congruence.
    + eapply step_trans; eauto.
Qed.

End Steps.

(** ** The request as a whole *)

Section Request.

Variable W : World.
Variable req : SearchParams.

(** A string that fails the guard of line 82 goes to the geocoder. *)
Lemma resolve_location_geocode location st :
  Js.includes "," location && Js.coordinate_pattern (Js.trim location) = false ->
  let st1 := with_call st (EvGeocode location) in
  resolve_location W location st =
  match geocode_api W location with
  | FetchThrows msg => (Thrown (FetchError msg), st1)
  | FetchJson data =>
      match String.eqb (geo_status data) "OK", geo_results data with
      | true, first :: _ => (Returned (gr_location first), st1)
      | _, _ =>
          if String.eqb (geo_status data) "ZERO_RESULTS"
          then (Thrown (LocationNotFound location), st1)
          else (Thrown (GeocodingError (geo_status data)), st1)
      end
  end.
Proof.
  intros H st1. unfold resolve_location. rewrite H. run.
  destruct (geocode_api W location) as [msg|data]; [reflexivity|].
  destruct (String.eqb (geo_status data) "OK"), (geo_results data);
    now destruct (String.eqb (geo_status data) "ZERO_RESULTS").
Qed.

Lemma resolve_location_step location st :
  step W st (snd (resolve_location W location st)).
Proof.
  destruct (Js.includes "," location && Js.coordinate_pattern (Js.trim location))
    eqn:H.
  - unfold resolve_location. rewrite H.
    destruct (List.map Js.parseFloat (Js.split "," location))
      as [|[a|] [|[b|] l]]; apply step_refl.
  - rewrite (resolve_location_geocode _ _ H).
    assert (step W st (with_call st (EvGeocode location))) as S
        by (apply step_with_call; discriminate).
    destruct (geocode_api W location) as [msg|data]; [exact S|].
    destruct (String.eqb (geo_status data) "OK"), (geo_results data);
      now destruct (String.eqb (geo_status data) "ZERO_RESULTS").
Qed.

(** The handler, stage by stage. *)
Lemma search_restaurants_stages st :
  missing (GOOGLE_PLACES_API_KEY W) || missing (GEMINI_API_KEY W) = false ->
  search_restaurants W req st =
  match resolve_location W (location req) st with
  | (Thrown e, st1) => (Thrown e, st1)
  | (Returned coordinates, st1) =>
      let query := places_query req coordinates in
      let st2 := with_call st1 (EvNearbySearch query) in
      match nearbysearch_api W query with
      | FetchThrows msg => (Thrown (FetchError msg), st2)
      | FetchJson placesData =>
          if negb (String.eqb (places_status placesData) "OK")
          then (Thrown (PlacesSearchError (places_status placesData)), st2)
          else
            match enrich W req (places_results placesData) st2 with
            | (Thrown e, st3) => (Thrown e, st3)
            | (Returned results, st3) =>
                let ranked :=
                  rankedRestaurants (default 4%Q (max_price req))
                    (filter_Boolean results) in
                (Returned (SearchOk ranked coordinates (Z.of_nat (length ranked))),
                 st3)
            end
      end
  end.
Proof.
  intros K. unfold search_restaurants. rewrite K. unfold bind at 1.
  destruct (resolve_location W (location req) st) as [[coordinates|e] st1];
    [|reflexivity].
  cbv zeta. unfold bind at 1. unfold fetch_json, log_call, bind at 1.
  destruct (nearbysearch_api W (places_query req coordinates)) as [msg|pd];
    [reflexivity|].
  unfold ret at 1.
  destruct (negb (String.eqb (places_status pd) "OK")); [reflexivity|].
  unfold bind at 1.
  now destruct (enrich W req (places_results pd)
                  (with_call st1 (EvNearbySearch (places_query req coordinates))))
    as [[results|e] st3].
Qed.

Lemma search_restaurants_step st :
  step W st (snd (search_restaurants W req st)).
Proof.
  destruct (missing (GOOGLE_PLACES_API_KEY W) || missing (GEMINI_API_KEY W))
    eqn:K.
  - unfold search_restaurants. rewrite K. apply step_refl.
  - rewrite (search_restaurants_stages _ K).
    pose proof (resolve_location_step (location req) st) as S1.
    destruct (resolve_location W (location req) st) as [[coordinates|e] st1];
      cbn [snd] in S1; [|exact S1].
    cbv zeta.
    assert (step W st
              (with_call st1 (EvNearbySearch (places_query req coordinates))))
      as S2.
    { eapply step_trans; [exact S1|]. apply step_with_call. discriminate. }
    destruct (nearbysearch_api W (places_query req coordinates)) as [msg|pd];
      [exact S2|].
    destruct (negb (String.eqb (places_status pd) "OK")); [exact S2|].
    unfold enrich.
    destruct (mapM_process_place W
                (default EmptyString (GOOGLE_PLACES_API_KEY W)) req
                (firstn 25 (places_results pd))
                (with_call st1 (EvNearbySearch (places_query req coordinates))))
      as (results & st3 & E & _ & S3).
    rewrite E. cbn [snd]. eapply step_trans; eauto.
  Qed.

(** A successful body determines the stages that produced it. *)
Lemma search_restaurants_ok st rs loc n st' :
  search_restaurants W req st = (Returned (SearchOk rs loc n), st') ->
  exists st1 placesData results,
    resolve_location W (location req) st = (Returned loc, st1)
    /\ nearbysearch_api W (places_query req loc) = FetchJson placesData
    /\ String.eqb (places_status placesData) "OK" = true
    /\ enrich W req (places_results placesData)
         (with_call st1 (EvNearbySearch (places_query req loc)))
       = (Returned results, st')
    /\ rs = rankedRestaurants (default 4%Q (max_price req)) (filter_Boolean results)
    /\ n = Z.of_nat (length rs).
Proof.
  intros H.
  destruct (missing (GOOGLE_PLACES_API_KEY W) || missing (GEMINI_API_KEY W))
    eqn:K.
  { unfold search_restaurants in H. rewrite K in H. discriminate. }
  rewrite (search_restaurants_stages _ K) in H.
  destruct (resolve_location W (location req) st) as [[coordinates|e] st1];
    [|discriminate].
  cbv zeta in H.
  destruct (nearbysearch_api W (places_query req coordinates)) as [msg|pd] eqn:N;
    [discriminate|].
  destruct (String.eqb (places_status pd) "OK") eqn:S; [|discriminate].
  cbn [negb] in H.
  destruct (enrich W req (places_results pd)
              (with_call st1 (EvNearbySearch (places_query req coordinates))))
    as [[results|e] st3] eqn:E; [|discriminate].
  injection H as <- <- <- <-.
  exists st1, pd, results. rewrite N. auto 10.
Qed.

End Request.

(** ** Auxiliary facts *)

Lemma filter_Boolean_In {A} (l : list (option A)) (x : A) :
  In (Some x) l -> In x (filter_Boolean l).
Proof.
  induction l as [|[y|] l IH]; cbn; [easy| |].
  - intros [[= ->]|H]; [now left | right; now apply IH].
  - intros [[=]|H]. now apply IH.
Qed.

Lemma rankedRestaurants_perm max_price l :
  Permutation (rankedRestaurants max_price l) (List.map (score max_price) l).
Proof. apply sort_perm. Qed.

Lemma rankedRestaurants_In max_price l x :
  In x (rankedRestaurants max_price l) <-> exists r, In r l /\ x = score max_price r.
Proof.
  split.
  - intros H. eapply Permutation_in in H; [|apply rankedRestaurants_perm].
    apply in_map_iff in H as (r & <- & H). eauto.
  - intros (r & H & ->).
    eapply Permutation_in; [symmetry; apply rankedRestaurants_perm|].
    now apply in_map.
Qed.

Lemma new_calls_app st st' new :
  calls st' = calls st ++ new -> new_calls st st' = new.
Proof.
  intros E. unfold new_calls. rewrite E.
  rewrite skipn_app, skipn_all, Nat.sub_diag. reflexivity.
Qed.

Section Clamp.

Local Open Scope Q_scope.

Lemma Qle_bool_false a b : Qle_bool a b = false -> b <= a.
Proof.
  intros E. apply Qlt_le_weak, Qnot_le_lt. intros H.
  apply Qle_bool_iff in H. congruence.
Qed.

(** [Math.max(0, Math.min(hi, x))] is NaN when [x] is, and a number
    between 0 and [hi] for every other [x]. *)
Lemma clamp_cases hi x :
  0 <= hi ->
  let y := Js.Math_max (Js.Finite 0) (Js.Math_min (Js.Finite hi) x) in
  (x = Js.NaN /\ y = Js.NaN)
  \/ (x <> Js.NaN /\ exists q, y = Js.Finite q /\ 0 <= q /\ q <= hi).
Proof.
  intros H y. subst y. destruct x as [| |q|]; cbn.
  - now left.
  - right. split; [discriminate|]. exists 0. split; [reflexivity|].
    split; [apply Qle_refl | exact H].
  - right. split; [discriminate|].
    destruct (Qle_bool hi q) eqn:E1; cbn.
    + pose proof H as H'. apply Qle_bool_iff in H'. rewrite H'.
      exists hi. split; [reflexivity|]. split; [exact H | apply Qle_refl].
    + apply Qle_bool_false in E1.
      destruct (Qle_bool 0 q) eqn:E2.
      * apply Qle_bool_iff in E2. now exists q.
      * exists 0. split; [reflexivity|]. split; [apply Qle_refl | exact H].
  - right. split; [discriminate|].
    pose proof H as H'. apply Qle_bool_iff in H'. rewrite H'.
    exists hi. split; [reflexivity|]. split; [exact H | apply Qle_refl].
Qed.

(** What the clamp writes into a column lies in the range of the column,
    or is [null]. *)
Lemma clamp_in_range hi x :
  0 <= hi ->
  in_range 0 hi
    (Js.JSON_number (Js.Math_max (Js.Finite 0) (Js.Math_min (Js.Finite hi) x))).
Proof.
  intros H. destruct (clamp_cases hi x H) as [[_ ->]|[_ (q & -> & B)]]; cbn; auto.
Qed.




Lemma aiSummary_of_in_bounds W old analysis :
  in_bounds (summary_row old (aiSummary_of W analysis)).
Proof.
  unfold in_bounds. cbn. split; now apply clamp_in_range.
Qed.

End Clamp.

(** * The claims *)

(** ** C1: the composite score *)

Section Doubles.

Import Binary64.









End Doubles.

(** In double precision the sum for rating 3.3, rank score 65, price
    level 2 and max_price 4 is 62.49999999999999, which rounds to 62;
    the exact sum 33 + 19.5 + 10 = 62.5 rounds to 63. *)
Example double_rounding_ex :
  Binary64.to_Q
    (Binary64.totalScore (Binary64.of_Z 4) (Some (Binary64.decimal 33 10))
       (Some (Binary64.of_Z 65)) (Some (Binary64.of_Z 2)))
  = Some (8796093022207999 # 140737488355328)%Q
  /\ Binary64.total_score (Binary64.of_Z 4) (Some (Binary64.decimal 33 10))
       (Some (Binary64.of_Z 65)) (Some (Binary64.of_Z 2))
     = Binary64.of_Z 62
  /\ Js.Math_round
       (totalScore 4 (Demo.scored (Some (33 # 10)%Q) (Some 65%Q) (Some 2%Q)))
     = 63.
Proof. repeat split; vm_compute; reflexivity. Qed.

Example Math_round_double_ex :
  Binary64.Math_round (Binary64.decimal 5 2) = Binary64.of_Z 3
  /\ Binary64.Math_round (Binary64.decimal (-5) 2) = Binary64.of_Z (-2)
  /\ Binary64.Math_round (Binary64.decimal (-1) 4) = S754_zero true
  /\ Binary64.Math_round (S754_finite false 9007199254740991 (-54))
     = Binary64.of_Z 0.
Proof. repeat split; vm_compute; reflexivity. Qed.




(** ** C10: a price level of 0 *)

(** C10: a candidate whose price level is 0 gets the score it would get
    without a price level, whatever max_price is: the price-fit term adds
    nothing, also for max_price 0, where the formula yields 1 and would
    add 20 points. *)
Theorem C10_price_level_zero_scores_nothing max_price r p :
  price_level r = Some p -> (p == 0)%Q ->
  total_score (score max_price r)
  = total_score (score max_price (without_price_level r))
  /\ (totalScore max_price r
      == spec_total_score max_price (without_price_level r))%Q
  /\ total_score (score 0 r) = total_score (score 0 (without_price_level r))
  /\ (spec_price_fit 0 (Some p) * 20 == 20)%Q.
Proof.
  intros Hp E. split; [|split; [|split]].
  - cbn [total_score score]. now rewrite (totalScore_price_zero _ _ _ Hp E).
  - rewrite (totalScore_price_zero _ _ _ Hp E).
    apply totalScore_spec. cbn. discriminate.
  - cbn [total_score score]. now rewrite (totalScore_price_zero _ _ _ Hp E).
  - unfold spec_price_fit. rewrite E. reflexivity.
Qed.

Lemma C10_witness :
  total_score (score 0 (Demo.scored (Some 4%Q) None (Some 0%Q))) = 40
  /\ total_score (score 0 (Demo.scored (Some 4%Q) None (Some 0%Q)))
     = total_score (score 0 (without_price_level
                               (Demo.scored (Some 4%Q) None (Some 0%Q)))).
Proof.
  split; [reflexivity|].
  refine (proj1 (C10_price_level_zero_scores_nothing 0
                   (Demo.scored (Some 4%Q) None (Some 0%Q)) 0 _ _)).
  - reflexivity.
  - reflexivity.
Defined.

(** ** C6: the order of the response *)

(** C6: the restaurants of a successful response are the scored results
    of the enrichment stage, in descending order of total_score, and
    candidates of equal total_score keep the order in which the
    enrichment stage produced them. *)
Theorem C6_sorted_descending_stable W req st rs loc n st' :
  search_restaurants W req st = (Returned (SearchOk rs loc n), st') ->
  exists placesData results,
    nearbysearch_api W (places_query req loc) = FetchJson placesData
    /\ enrich W req (places_results placesData)
         (with_call (snd (resolve_location W (location req) st))
            (EvNearbySearch (places_query req loc)))
       = (Returned results, st')
    /\ let unsorted :=
         List.map (score (default 4%Q (max_price req))) (filter_Boolean results) in
       StronglySorted ge_score rs
       /\ Permutation rs unsorted
       /\ forall s, List.filter (has_score s) rs = List.filter (has_score s) unsorted.
Proof.
  intros H.
  apply search_restaurants_ok in H as (st1 & pd & results & R & N & _ & E & -> & _).
  exists pd, results. rewrite R. cbn [snd].
  split; [exact N|]. split; [exact E|].
  cbv zeta. unfold rankedRestaurants.
  split; [apply sort_sorted|].
  split; [apply sort_perm | intros s; apply sort_stable].
Qed.

Lemma C6_witness :
  StronglySorted ge_score Demo.ranked
  /\ List.map (fun x => (name (restaurant x), total_score x)) Demo.ranked
     = [("Udupi Grand", 85); ("Corner Cafe", 40); ("Free Kitchen", 40)]%string.
Proof.
  split; [|vm_compute; reflexivity].
  destruct (C6_sorted_descending_stable Demo.world Demo.request Demo.empty_state
              Demo.ranked Demo.centre 3 Demo.final_state)
    as (placesData & results & _ & _ & S & _).
  - vm_compute. reflexivity.
  - exact S.
Defined.

(** ** C3: malformed coordinate-like locations *)

(** C3, as stated, fails: "abc,def" contains a comma and does not match
    the pattern, so it is handed to the geocoding provider; with a
    provider that knows no such place the request fails with
    LocationNotFound, not with InvalidCoordinates. *)
Lemma C3_counterexample :
  resolve_location Demo.world "abc,def" Demo.empty_state
  = (Thrown (LocationNotFound "abc,def"),
     with_call Demo.empty_state (EvGeocode "abc,def"))
  /\ fst (resolve_location Demo.world "abc,def" Demo.empty_state)
     <> Thrown InvalidCoordinates
  /\ In (EvGeocode "abc,def")
       (calls (snd (resolve_location Demo.world "abc,def" Demo.empty_state)))
  /\ serve Demo.world {| method := "POST"; json := Demo.params "abc,def" None |}
       Demo.empty_state
     = ({| status := 500;
           body := SearchFailed (message (LocationNotFound "abc,def")) [] 0 |},
        with_call Demo.empty_state (EvGeocode "abc,def")).
Proof.
  split; [reflexivity|]. split; [discriminate|].
  split; [left; reflexivity | reflexivity].
Qed.

(** C3, amended: a location string that does not match the strict
    "number,number" pattern, such as "abc,def", is never rejected with
    InvalidCoordinates: exactly one geocoding lookup is made for it, and
    the provider decides. ZERO_RESULTS fails with LocationNotFound (which
    carries the input), any other answer without status OK or without a
    first result fails with GeocodingError, and status OK with a result
    resolves to the coordinates of the first result. *)
Theorem C3_malformed_location_is_geocoded W location st :
  Js.coordinate_pattern (Js.trim location) = false ->
  let res := resolve_location W location st in
  fst res <> Thrown InvalidCoordinates
  /\ snd res = with_call st (EvGeocode location)
  /\ forall data,
       geocode_api W location = FetchJson data ->
       match String.eqb (geo_status data) "OK", geo_results data with
       | true, first :: _ => fst res = Returned (gr_location first)
       | _, _ =>
           if String.eqb (geo_status data) "ZERO_RESULTS"
           then fst res = Thrown (LocationNotFound location)
           else fst res = Thrown (GeocodingError (geo_status data))
       end.
Proof.
  intros H res. subst res.
  rewrite resolve_location_geocode by (rewrite H; apply andb_false_r).
  destruct (geocode_api W location) as [msg|data].
  - split; [discriminate|]. split; [reflexivity|]. discriminate.
  - split; [|split].
    + destruct (String.eqb (geo_status data) "OK"), (geo_results data);
        destruct (String.eqb (geo_status data) "ZERO_RESULTS"); discriminate.
    + destruct (String.eqb (geo_status data) "OK"), (geo_results data);
        now destruct (String.eqb (geo_status data) "ZERO_RESULTS").
    + intros ? [= <-].
      destruct (String.eqb (geo_status data) "OK"), (geo_results data);
        now destruct (String.eqb (geo_status data) "ZERO_RESULTS").
Qed.

Lemma C3_witness :
  fst (resolve_location Demo.world "abc,def" Demo.empty_state)
  <> Thrown InvalidCoordinates
  /\ snd (resolve_location Demo.world "abc,def" Demo.empty_state)
     = with_call Demo.empty_state (EvGeocode "abc,def").
Proof.
  destruct (C3_malformed_location_is_geocoded Demo.world "abc,def"
              Demo.empty_state) as (A & B & _).
  - reflexivity.
  - split; [exact A | exact B].
Defined.

(** ** C8: a failed nearby search *)

(** C8: when the nearby search is reached and its answer has a status
    other than OK, the handler answers 500 with the body
    [{ error: "Places API error: <status>", restaurants: [], total_found: 0 }];
    the only call after the location stage is the nearby search itself,
    so no details or summarisation call is made and no cache row is
    written. *)
Theorem C8_places_failure_aborts W rq st coordinates st1 placesData :
  String.eqb (method rq) "OPTIONS" = false ->
  missing (GOOGLE_PLACES_API_KEY W) || missing (GEMINI_API_KEY W) = false ->
  resolve_location W (location (json rq)) st = (Returned coordinates, st1) ->
  nearbysearch_api W (places_query (json rq) coordinates) = FetchJson placesData ->
  places_status placesData <> "OK"%string ->
  let query := places_query (json rq) coordinates in
  serve W rq st
  = ({| status := 500;
        body := SearchFailed ("Places API error: " +:+ places_status placesData)
                  [] 0 |},
     with_call st1 (EvNearbySearch query))
  /\ restaurants_tbl (snd (serve W rq st)) = restaurants_tbl st
  /\ summaries_tbl (snd (serve W rq st)) = summaries_tbl st
  /\ forall e, In e (new_calls st1 (snd (serve W rq st))) -> e = EvNearbySearch query.
Proof.
  intros Hm K R N S query. subst query.
  set (query := places_query (json rq) coordinates) in *.
  assert (serve W rq st
          = ({| status := 500;
                body := SearchFailed
                          ("Places API error: " +:+ places_status placesData) [] 0 |},
             with_call st1 (EvNearbySearch query))) as E.
  { unfold serve. rewrite Hm, (search_restaurants_stages _ _ _ K), R.
    cbv zeta. fold query. rewrite N.
    apply String.eqb_neq in S. rewrite S. reflexivity. }
  rewrite E. cbn [snd]. split; [reflexivity|].
  pose proof (resolve_location_step W (location (json rq)) st) as T.
  rewrite R in T. cbn [snd] in T.
  assert (restaurants_tbl st1 = restaurants_tbl st /\ summaries_tbl st1 = summaries_tbl st)
    as [E1 E2].
  { clear - R. unfold resolve_location in R.
    destruct (Js.includes "," (location (json rq))
              && Js.coordinate_pattern (Js.trim (location (json rq)))).
    - destruct (List.map Js.parseFloat (Js.split "," (location (json rq))))
        as [|[a|] [|[b|] l]]; try discriminate R.
      injection R as _ <-. now split.
    - revert R. run.
      destruct (geocode_api W (location (json rq))) as [msg|data];
        [discriminate|].
      destruct (String.eqb (geo_status data) "OK"), (geo_results data);
        destruct (String.eqb (geo_status data) "ZERO_RESULTS");
        try discriminate; intros [= _ <-]; now split. }
  split; [exact E1|]. split; [exact E2|].
  intros e He. rewrite (new_calls_app st1 _ [EvNearbySearch query]) in He
    by reflexivity.
  destruct He as [<-|[]]. reflexivity.
Qed.

Lemma C8_witness :
  serve Demo.world {| method := "POST"; json := Demo.params "12.97,77.59" (Some 1%Q) |}
    Demo.empty_state
  = ({| status := 500;
        body := SearchFailed "Places API error: OVER_QUERY_LIMIT" [] 0 |},
     with_call Demo.empty_state
       (EvNearbySearch
          (places_query (Demo.params "12.97,77.59" (Some 1%Q))
             {| lat := 1297 # 100; lng := 7759 # 100 |}))).
Proof.
  refine (proj1 (C8_places_failure_aborts Demo.world
                   {| method := "POST";
                      json := Demo.params "12.97,77.59" (Some 1%Q) |}
                   Demo.empty_state {| lat := 1297 # 100; lng := 7759 # 100 |}
                   Demo.empty_state
                   {| places_status := "OVER_QUERY_LIMIT"; places_results := [] |}
                   _ _ _ _ _)).
  - reflexivity.
  - reflexivity.
  - vm_compute. reflexivity.
  - reflexivity.
  - discriminate.
Defined.

(** ** C4: the 24 hour window of the venue cache *)

Lemma get_restaurantData_calls W key place st :
  let st1 := snd (get_restaurantData W key place st) in
  (fresh_venue W st (pl_place_id place) <> None /\ calls st1 = calls st)
  \/ (fresh_venue W st (pl_place_id place) = None
      /\ calls st1 = calls st ++ [EvDetails (pl_place_id place)]).
Proof.
  cbv zeta. destruct (fresh_venue W st (pl_place_id place)) as [row|] eqn:F.
  - left. rewrite (get_restaurantData_hit _ _ _ _ _ F). now split.
  - right. split; [reflexivity|]. rewrite (get_restaurantData_miss _ _ _ _ F).
    destruct (details_api W (pl_place_id place)) as [msg|data]; [reflexivity|].
    destruct (negb (String.eqb (details_status data) "OK")); [reflexivity|].
    now destruct (details_result data).
Qed.

(** C4: a venue row cached less than 24 hours ago is returned as it is,
    without a details call and without a write, and no details call for
    its place identifier is made anywhere in the request; a row cached
    24 hours and 1 second ago is a miss: the details call is made, and
    when it answers OK the fetched record, stamped now, is returned and
    upserted under its place identifier (the row keeps the old value of
    an optional column that the fetched record does not have). *)
Theorem C4_venue_cache_window W key req place st row :
  restaurants_tbl st !! pl_place_id place = Some row ->
  let k := pl_place_id place in
  (Date_now W - rd_cached_at row < DAY_MS ->
   get_restaurantData W key place st = (Returned (Some row), st)
   /\ ~ In (EvDetails k) (new_calls st (snd (search_restaurants W req st))))
  /\ (rd_cached_at row = Date_now W - (DAY_MS + 1000) ->
      let st1 := with_call st (EvDetails k) in
      calls (snd (get_restaurantData W key place st)) = calls st ++ [EvDetails k]
      /\ forall details,
           details_api W k
           = FetchJson {| details_status := "OK"; details_result := Some details |} ->
           let fetched := restaurantData_of W key details in
           get_restaurantData W key place st
           = (Returned (Some fetched), with_venue st1 fetched)
           /\ restaurants_tbl (with_venue st1 fetched) !! pd_place_id details
              = Some (venue_row (restaurants_tbl st !! pd_place_id details) fetched)
           /\ rd_cached_at fetched = Date_now W).
Proof.
  intros L k. split.
  - intros A.
    assert (fresh_venue W st k = Some row) as F.
    { unfold fresh_venue, fresh. fold k in L. rewrite L.
      destruct (Z.leb_spec (Date_now W - DAY_MS) (rd_cached_at row));
        [reflexivity | lia]. }
    split; [now apply get_restaurantData_hit|].
    destruct (step_calls _ _ _ (search_restaurants_step W req st)) as (new & E & H).
    rewrite (new_calls_app _ _ _ E). intros I. apply H in I. congruence.
  - intros A st1.
    assert (fresh_venue W st k = None) as F.
    { unfold fresh_venue, fresh. fold k in L. rewrite L, A.
      destruct (Z.leb_spec (Date_now W - DAY_MS) (Date_now W - (DAY_MS + 1000)));
        [lia | reflexivity]. }
    split.
    + destruct (get_restaurantData_calls W key place st) as [[N _]|[_ E]];
        [now elim N | exact E].
    + intros details D fetched.
      rewrite (get_restaurantData_miss _ _ _ _ F). fold k. rewrite D. cbn.
      split; [reflexivity|]. split; [apply lookup_insert_eq | reflexivity].
Qed.

Lemma C4_witness :
  (get_restaurantData Demo.world "gk" (Demo.place "p1")
     (Demo.state_with_venue "p1" 1000)
   = (Returned (Some (Demo.cached_row "p1" 1000)), Demo.state_with_venue "p1" 1000)
   /\ ~ In (EvDetails "p1")
          (new_calls (Demo.state_with_venue "p1" 1000)
             (snd (search_restaurants Demo.world Demo.request
                     (Demo.state_with_venue "p1" 1000)))))
  /\ calls (snd (get_restaurantData Demo.world "gk" (Demo.place "p1")
                   (Demo.state_with_venue "p1" (DAY_MS + 1000))))
     = [EvDetails "p1"].
Proof.
  split.
  - refine (proj1 (C4_venue_cache_window Demo.world "gk" Demo.request
                     (Demo.place "p1") (Demo.state_with_venue "p1" 1000)
                     (Demo.cached_row "p1" 1000) _) _).
    + reflexivity.
    + reflexivity.
  - refine (proj1 (proj2 (C4_venue_cache_window Demo.world "gk" Demo.request
                            (Demo.place "p1")
                            (Demo.state_with_venue "p1" (DAY_MS + 1000))
                            (Demo.cached_row "p1" (DAY_MS + 1000)) _) _)).
    + reflexivity.
    + reflexivity.
Defined.

(** ** C5: the bounds of a persisted summary *)




(** ** C7: venues without a qualifying review *)

(** C7, as stated, fails: the summary cache is read before the reviews
    are looked at. Both reviews of venue p3 fail the length filter, a
    fresh summary row for p3 is in the cache, and the result carries that
    summary. *)
Lemma C7_counterexample :
  List.map qualifying [Demo.short_review; Demo.empty_review] = [false; false]
  /\ (exists r st',
        process_place Demo.world "gk" Demo.request (Demo.place "p3")
          (Demo.state_with_summary "p3")
        = (Returned (Some r), st')
        /\ ai_summary r = Some (view_of_row (Demo.summary_of "p3"))
        /\ ai_summary r <> None
        /\ calls st' = [EvDetails "p3"])
  /\ match fst (search_restaurants Demo.world Demo.request
                  (Demo.state_with_summary "p3")) with
     | Returned (SearchOk rs _ _) =>
         List.map (fun x => (name (restaurant x),
                             option_map short_summary (ai_summary (restaurant x))))
           rs
     | _ => []
     end
     = [("Udupi Grand", Some "Reliable south Indian food.");
        ("Corner Cafe", Some "Cosy, slow on weekends.");
        ("Free Kitchen", None)]%string.
Proof.
  split; [reflexivity|]. split.
  - eexists. eexists. split; [vm_compute; reflexivity|].
    split; [reflexivity|]. split; [discriminate | reflexivity].
  - vm_compute. reflexivity.
Qed.

(** The callback on a venue record without a qualifying review. *)
Lemma process_place_no_qualifying_review W key req place st rd st1 :
  get_restaurantData W key place st = (Returned (Some rd), st1) ->
  Forall (fun review => qualifying review = false) (rd_reviews rd) ->
  process_place W key req place st
  = (Returned
       (Some (result_of rd
                (option_map view_of_row (fresh_summary W st1 (rd_place_id rd))))),
     st1)
  /\ forall e, In e (new_calls st st1) -> is_generate e = false.
Proof.
  intros G Q.
  assert (reviewTexts (rd_reviews rd) = []) as T.
  { unfold reviewTexts.
    replace (List.filter qualifying (rd_reviews rd)) with (@nil Review);
      [reflexivity|].
    symmetry. clear - Q. induction Q as [|x l Hx _ IH]; [reflexivity|].
    cbn. now rewrite Hx. }
  split.
  - rewrite (process_place_found _ _ _ _ _ _ _ G).
    destruct (fresh_summary W st1 (rd_place_id rd)) as [row|] eqn:F.
    + now rewrite (get_aiSummary_cached _ _ _ _ _ F).
    + now rewrite (get_aiSummary_skip _ _ _ _ F T).
  - intros e He.
    destruct (get_restaurantData_calls W key place st) as [[_ E]|[_ E]];
      rewrite G in E; cbn [snd] in E.
    + rewrite (new_calls_app st st1 []) in He by now rewrite app_nil_r.
      destruct He.
    + rewrite (new_calls_app _ _ _ E) in He. destruct He as [<-|[]]. reflexivity.
Qed.

(** The results of a run over a list are the results of its parts. *)
Lemma mapM_app {A B} (f : A -> M B) l1 x l2 st results st' :
  mapM f (l1 ++ x :: l2) st = (Returned results, st') ->
  exists r1 y st2 r2,
    mapM f l1 st = (Returned r1, snd (mapM f l1 st))
    /\ f x (snd (mapM f l1 st)) = (Returned y, st2)
    /\ mapM f l2 st2 = (Returned r2, st')
    /\ results = r1 ++ y :: r2.
Proof.
  revert st results. induction l1 as [|a l1 IH]; intros st results H.
  - cbn [app mapM] in *. unfold bind at 1 in H.
    destruct (f x st) as [[y|e] st2] eqn:F; [|discriminate].
    unfold bind at 1 in H.
    destruct (mapM f l2 st2) as [[r2|e] st3] eqn:G; [|discriminate].
    injection H as <- <-. exists [], y, st2, r2. cbn. auto.
  - cbn [app] in H. cbn [mapM] in H. unfold bind at 1 in H.
    destruct (f a st) as [[b|e] sa] eqn:F; [|discriminate].
    unfold bind at 1 in H.
    destruct (mapM f (l1 ++ x :: l2) sa) as [[rs|e] sb] eqn:G; [|discriminate].
    injection H as <- <-.
    destruct (IH _ _ G) as (r1 & y & st2 & r2 & E1 & E2 & E3 & ->).
    assert (mapM f (a :: l1) st = (Returned (b :: r1), snd (mapM f l1 sa))) as E.
    { cbn [mapM]. unfold bind at 1. rewrite F. unfold bind at 1. now rewrite E1. }
    exists (b :: r1), y, st2, r2. rewrite E. cbn [snd]. auto.
Qed.

(** C7, amended: in a successful request, take a candidate and the state
    in which its callback starts (the state left by the candidates before
    it). If the venue record the callback resolves, cached or fetched,
    has no review that passes the length filter, then the callback makes
    no summarisation call, and the venue is in the response with its
    score; its ai_summary is the fresh cached summary of its place
    identifier if there is one, and absent otherwise. *)
Theorem C7_no_qualifying_review
  W req st rs loc n st' placesData before place after rd st_v :
  search_restaurants W req st = (Returned (SearchOk rs loc n), st') ->
  nearbysearch_api W (places_query req loc) = FetchJson placesData ->
  firstn 25 (places_results placesData) = before ++ place :: after ->
  let key := default EmptyString (GOOGLE_PLACES_API_KEY W) in
  let st2 :=
    with_call (snd (resolve_location W (location req) st))
      (EvNearbySearch (places_query req loc)) in
  let st_i := snd (mapM (process_place W key req) before st2) in
  get_restaurantData W key place st_i = (Returned (Some rd), st_v) ->
  Forall (fun review => qualifying review = false) (rd_reviews rd) ->
  let cached := fresh_summary W st_v (rd_place_id rd) in
  let r := result_of rd (option_map view_of_row cached) in
  process_place W key req place st_i = (Returned (Some r), st_v)
  /\ (forall e, In e (new_calls st_i st_v) -> is_generate e = false)
  /\ In (score (default 4%Q (max_price req)) r) rs
  /\ (cached = None -> ai_summary r = None).
Proof.
  intros H N L key st2 st_i G Q cached r.
  destruct (process_place_no_qualifying_review W key req place st_i rd st_v G Q)
    as [P C].
  split; [exact P|]. split; [exact C|]. split.
  - apply search_restaurants_ok in H
      as (st1 & pd & results & R & N' & _ & E & -> & _).
    rewrite N in N'. injection N' as <-.
    unfold enrich in E. fold key in E. rewrite L in E.
    assert (st2 = with_call st1 (EvNearbySearch (places_query req loc))) as S2
        by (subst st2; now rewrite R).
    rewrite <- S2 in E.
    apply mapM_app in E as (r1 & y & sy & r2 & _ & Ey & _ & ->).
    fold st_i in Ey. rewrite P in Ey. injection Ey as <- <-.
    apply rankedRestaurants_In. exists r. split; [|reflexivity].
    apply filter_Boolean_In, in_or_app. right. now left.
  - intros E. subst r. cbn. now rewrite E.
Qed.

Lemma C7_witness :
  exists x,
    In x Demo.ranked
    /\ name (restaurant x) = "Corner Cafe"%string
    /\ ai_summary (restaurant x) = None.
Proof.
  pose proof
    (C7_no_qualifying_review Demo.world Demo.request Demo.empty_state
       Demo.ranked Demo.centre 3 Demo.final_state
       {| places_status := "OK";
          places_results :=
            List.map Demo.place ["p1"; "p2"; "p3"; "p4"; "p5"]%string |}
       [Demo.place "p1"; Demo.place "p2"] (Demo.place "p3")
       [Demo.place "p4"; Demo.place "p5"]
       (restaurantData_of Demo.world "gk"
          (Demo.venue "p3" "Corner Cafe" (Some 4%Q) None
             (Some [Demo.short_review; Demo.empty_review])))) as T.
  cbv zeta in T.
  edestruct T as (_ & _ & I & A).
  - vm_compute. reflexivity.
  - reflexivity.
  - reflexivity.
  - vm_compute. reflexivity.
  - repeat constructor.
  - eexists. split; [exact I|]. split; [reflexivity|].
    apply A. vm_compute. reflexivity.
Defined.

(** ** C2: failures of single candidates *)

Lemma mapM_length {A B} (f : A -> M B) l st results st' :
  mapM f l st = (Returned results, st') -> length results = length l.
Proof.
  revert st results. induction l as [|x l IH]; intros st results H.
  - cbn in H. injection H as <- <-. reflexivity.
  - cbn [mapM] in H. unfold bind at 1 in H.
    destruct (f x st) as [[y|e] s1]; [|discriminate].
    unfold bind at 1 in H.
    destruct (mapM f l s1) as [[ys|e] s2] eqn:E; [|discriminate].
    injection H as <- <-. cbn. f_equal. eapply IH, E.
Qed.

(** Without a cached summary and without an answer of the generator
    that parses, step 4 yields no summary, and does not throw. *)
Lemma get_aiSummary_fails W req rd st :
  fresh_summary W st (rd_place_id rd) = None ->
  (forall analysis,
      ~ generator_answer W (analysisPrompt req rd (reviewTexts (rd_reviews rd)))
          analysis) ->
  fst (get_aiSummary W req rd st) = Returned None.
Proof.
  intros F N.
  destruct (reviewTexts (rd_reviews rd)) as [|t ts] eqn:T.
  { now rewrite (get_aiSummary_skip _ _ _ _ F T). }
  rewrite get_aiSummary_generate; [|exact F|now rewrite T].
  rewrite T in *. unfold generate_summary. run.
  destruct (generate_api W (analysisPrompt req rd (t :: ts))) as [msg|data] eqn:G;
    [reflexivity|].
  destruct (candidates data) as [[|first rest]|] eqn:C; [reflexivity| |reflexivity].
  destruct (cand_text first) as [text|] eqn:X; [|reflexivity].
  destruct (JSON_parse W (cleanJson text)) as [a|] eqn:P; [|reflexivity].
  elim (N a). now exists data, first, rest, text.
Qed.

(** What the callback of one candidate returns, from what is cached and
    what the providers answer for this candidate. *)
Lemma process_place_outcome W key req place st res st' :
  process_place W key req place st = (Returned res, st') ->
  (res = None
   <-> fresh_venue W st (pl_place_id place) = None /\ ~ details_available W place)
  /\ forall r,
       res = Some r ->
       exists rd,
         r = result_of rd (ai_summary r)
         /\ (fresh_venue W st (pl_place_id place) = Some rd
             \/ fresh_venue W st (pl_place_id place) = None
                /\ exists details,
                     details_answer W (pl_place_id place) details
                     /\ rd = restaurantData_of W key details)
         /\ (fresh_summary W st (rd_place_id rd) = None ->
             (forall analysis,
                 ~ generator_answer W
                     (analysisPrompt req rd (reviewTexts (rd_reviews rd)))
                     analysis) ->
             ai_summary r = None).
Proof.
  intros P.
  assert (forall rd st1,
             get_restaurantData W key place st = (Returned (Some rd), st1) ->
             summaries_tbl st1 = summaries_tbl st ->
             exists v,
               res = Some (result_of rd v)
               /\ (fresh_summary W st (rd_place_id rd) = None ->
                   (forall analysis,
                       ~ generator_answer W
                           (analysisPrompt req rd (reviewTexts (rd_reviews rd)))
                           analysis) ->
                   v = None)) as Found.
  { intros rd st1 G S. rewrite (process_place_found _ _ _ _ _ _ _ G) in P.
    destruct (get_aiSummary_returns W req rd st1) as (v & s2 & A).
    rewrite A in P. injection P as <- <-. exists v. split; [reflexivity|].
    intros F N.
    assert (fresh_summary W st1 (rd_place_id rd) = None) as F1
        by (unfold fresh_summary in *; now rewrite S).
    pose proof (get_aiSummary_fails W req rd st1 F1 N) as Z.
    rewrite A in Z. now injection Z. }
  destruct (fresh_venue W st (pl_place_id place)) as [row|] eqn:F.
  - destruct (Found row st (get_restaurantData_hit _ _ _ _ _ F) eq_refl)
      as (v & -> & V).
    split; [split; [discriminate | now intros [? _]]|].
    intros r [= <-]. exists row. split; [reflexivity|]. split; [now left|].
    exact V.
  - pose proof (get_restaurantData_miss W key place st F) as G. cbv zeta in G.
    destruct (details_api W (pl_place_id place)) as [msg|data] eqn:D.
    { rewrite (process_place_dropped _ _ _ _ _ _ _ G) in P by congruence.
      injection P as <- <-. split; [|discriminate].
      split; [|reflexivity]. intros _. split; [reflexivity|].
      intros (d & A). congruence. }
    destruct (String.eqb (details_status data) "OK") eqn:S; cbn [negb] in G.
    2:{ rewrite (process_place_null _ _ _ _ _ _ G) in P.
        injection P as <- <-. split; [|discriminate].
        split; [|reflexivity]. intros _. split; [reflexivity|].
        intros (d & A). rewrite A in D. injection D as <-. discriminate S. }
    destruct (details_result data) as [d|] eqn:Rd.
    2:{ rewrite (process_place_dropped _ _ _ _ _ _ _ G) in P by congruence.
        injection P as <- <-. split; [|discriminate].
        split; [|reflexivity]. intros _. split; [reflexivity|].
        intros (d & A). rewrite A in D. injection D as <-. discriminate Rd. }
    assert (details_answer W (pl_place_id place) d) as A.
    { unfold details_answer. rewrite D. destruct data as [status result].
      cbn in *. apply String.eqb_eq in S. now subst. }
    destruct (Found _ _ G eq_refl) as (v & -> & V).
    split.
    { split; [discriminate|]. intros [_ N]. elim N. now exists d. }
    intros r [= <-]. exists (restaurantData_of W key d).
    split; [reflexivity|]. split; [|exact V].
    right. split; [reflexivity|]. now exists d.
Qed.

(** C2: once the credentials are present, the location is resolved and
    the nearby search answers OK, the request answers 200 with a result
    list, whatever the details calls, the summarisation calls and the
    parser do. There is one callback result per candidate (at most 25),
    and the list ranks exactly the results that are not null. For each
    candidate, with the state in which its callback starts (the state
    left by the candidates before it): the result is null exactly when
    there is no fresh cached venue row for the candidate and its details
    call does not answer OK with a record (a status that is not OK, a
    missing record, a call that throws); otherwise the result is in the
    response with its score, built from the cached row or from the
    record of the details call, and it has no ai_summary when there is
    no fresh cached summary and the summarisation yields no parsed
    answer (the call throws, has no candidate or no text, or the text
    does not parse). *)
Theorem C2_candidate_failures_are_isolated W rq st coordinates st1 placesData :
  String.eqb (method rq) "OPTIONS" = false ->
  missing (GOOGLE_PLACES_API_KEY W) || missing (GEMINI_API_KEY W) = false ->
  resolve_location W (location (json rq)) st = (Returned coordinates, st1) ->
  nearbysearch_api W (places_query (json rq) coordinates) = FetchJson placesData ->
  places_status placesData = "OK"%string ->
  let req := json rq in
  let max_price := default 4%Q (max_price req) in
  let key := default EmptyString (GOOGLE_PLACES_API_KEY W) in
  let candidates := firstn 25 (places_results placesData) in
  let st2 := with_call st1 (EvNearbySearch (places_query req coordinates)) in
  exists results st',
    let ranked := rankedRestaurants max_price (filter_Boolean results) in
    serve W rq st
    = ({| status := 200;
          body := SearchOk ranked coordinates (Z.of_nat (length ranked)) |}, st')
    /\ length results = length candidates
    /\ forall before place after,
         candidates = before ++ place :: after ->
         let st_i := snd (mapM (process_place W key req) before st2) in
         exists res,
           results !! length before = Some res
           /\ (res = None
               <-> fresh_venue W st_i (pl_place_id place) = None
                   /\ ~ details_available W place)
           /\ forall r,
                res = Some r ->
                In (score max_price r) ranked
                /\ exists rd,
                     r = result_of rd (ai_summary r)
                     /\ (fresh_venue W st_i (pl_place_id place) = Some rd
                         \/ fresh_venue W st_i (pl_place_id place) = None
                            /\ exists details,
                                 details_answer W (pl_place_id place) details
                                 /\ rd = restaurantData_of W key details)
                     /\ (fresh_summary W st_i (rd_place_id rd) = None ->
                         (forall analysis,
                             ~ generator_answer W
                                 (analysisPrompt req rd (reviewTexts (rd_reviews rd)))
                                 analysis) ->
                         ai_summary r = None).
Proof.
  intros Hm K R N S req max_price key candidates st2. subst req.
  destruct (mapM_process_place W key (json rq) candidates st2)
    as (results & st' & E & _ & _).
  exists results, st'. cbv zeta. split; [|split].
  - unfold serve. rewrite Hm.
    rewrite (search_restaurants_stages _ _ _ K), R.
    cbv zeta. rewrite N, S. cbn [String.eqb negb].
    unfold enrich. fold key candidates st2. now rewrite E.
  - eapply mapM_length, E.
  - intros before place after L. rewrite L in E.
    apply mapM_app in E as (r1 & y & sy & r2 & E1 & Ey & _ & ->).
    apply mapM_length in E1.
    exists y. split; [now apply list_lookup_middle|].
    destruct (process_place_outcome _ _ _ _ _ _ _ Ey) as [D F].
    split; [exact D|]. intros r ->. split; [|now apply F].
    apply rankedRestaurants_In. exists r. split; [|reflexivity].
    apply filter_Boolean_In, in_or_app. right. now left.
Qed.

Lemma C2_witness :
  exists results st',
    serve Demo.world {| method := "POST"; json := Demo.request |} Demo.empty_state
    = ({| status := 200;
          body := SearchOk (rankedRestaurants 4 (filter_Boolean results)) Demo.centre
                    (Z.of_nat (length (rankedRestaurants 4 (filter_Boolean results)))) |},
       st')
    /\ length results = 5%nat
    /\ results !! 1%nat = Some None
    /\ results !! 3%nat = Some None
    /\ (exists r, results !! 2%nat = Some (Some r) /\ ai_summary r = None).
Proof.
  destruct (C2_candidate_failures_are_isolated Demo.world
              {| method := "POST"; json := Demo.request |} Demo.empty_state
              Demo.centre (with_call Demo.empty_state (EvGeocode "Bengaluru"))
              {| places_status := "OK";
                 places_results :=
                   List.map Demo.place ["p1"; "p2"; "p3"; "p4"; "p5"]%string |})
    as (results & st' & E & L & A).
  - reflexivity.
  - reflexivity.
  - reflexivity.
  - reflexivity.
  - reflexivity.
  - exists results, st'. split; [exact E|]. split; [exact L|].
    split; [|split].
    + destruct (A [Demo.place "p1"] (Demo.place "p2")
                  (List.map Demo.place ["p3"; "p4"; "p5"]%string) eq_refl)
        as (res & H & D & _).
      cbn [length List.map] in H. rewrite H. f_equal. apply D.
      split; [vm_compute; reflexivity|].
      intros (d & X). vm_compute in X. discriminate.
    + destruct (A (List.map Demo.place ["p1"; "p2"; "p3"]%string) (Demo.place "p4")
                  [Demo.place "p5"] eq_refl)
        as (res & H & D & _).
      cbn [length List.map] in H. rewrite H. f_equal. apply D.
      split; [vm_compute; reflexivity|].
      intros (d & X). vm_compute in X. discriminate.
    + destruct (A (List.map Demo.place ["p1"; "p2"]%string) (Demo.place "p3")
                  (List.map Demo.place ["p4"; "p5"]%string) eq_refl)
        as (res & H & D & F).
      cbn [length List.map] in H.
      destruct res as [r|].
      * exists r. split; [exact H|].
        destruct (F r eq_refl) as (_ & rd & Er & [V|[_ (d & Hd & Erd)]] & Z).
        { vm_compute in V. discriminate. }
        unfold details_answer in Hd. vm_compute in Hd. injection Hd as <-.
        subst rd. apply Z; [vm_compute; reflexivity|].
        intros a (data & first & rest & text & G & _).
        vm_compute in G. discriminate.
      * exfalso. destruct (proj1 D eq_refl) as [_ X]. apply X.
        eexists. vm_compute. reflexivity.
Defined.

(** ** C9: the dishes of a summary *)

(** The object handed to the upsert has no dishes_to_try and no
    matching_menu_items: a freshly inserted row has the defaults of the
    schema, whatever the generator answered. *)
Lemma upsert_drops_dishes W analysis :
  sr_dishes_to_try (summary_row None (aiSummary_of W analysis)) = []
  /\ sr_matching_menu_items (summary_row None (aiSummary_of W analysis)) = [].
Proof. split; reflexivity. Qed.

(** C9 does not hold of the code: the generator answers
    dishes_to_try = ["Masala Dosa"] and matching_menu_items = ["Idli"]
    for venue p1, the summary is parsed and persisted, and the persisted
    row has neither. *)
Theorem C9_dishes_are_not_persisted :
  JSON_parse Demo.world (cleanJson Demo.answer_text) = Some Demo.analysis
  /\ ga_dishes_to_try Demo.analysis = Some ["Masala Dosa"%string]
  /\ ga_matching_menu_items Demo.analysis = Some ["Idli"%string]
  /\ summaries_tbl Demo.final_state !! "p1"
     = Some (summary_row None (aiSummary_of Demo.world Demo.analysis))
  /\ option_map sr_dishes_to_try (summaries_tbl Demo.final_state !! "p1") = Some []
  /\ option_map sr_matching_menu_items (summaries_tbl Demo.final_state !! "p1")
     = Some [].
Proof.
  split; [reflexivity|]. split; [reflexivity|]. split; [reflexivity|].
  split; [vm_compute; reflexivity|].
  split; vm_compute; reflexivity.
Qed.

(** ** The coordinate branch cannot fail *)

Section Coordinates.

Lemma is_digit_not_comma c : Js.is_digit c = true -> Ascii.eqb c "," = false.
Proof.
  intros H. destruct (Ascii.eqb_spec c ",") as [->|]; [discriminate H | reflexivity].
Qed.

Lemma is_digit_not_space c : Js.is_digit c = true -> Js.is_space c = false.
Proof.
  unfold Js.is_digit, Js.is_space. intros H.
  apply andb_true_iff in H as [H1 H2].
  apply Nat.leb_le in H1, H2.
  apply orb_false_iff. split; [apply orb_false_iff; split|].
  - apply andb_false_iff. right. apply Nat.leb_gt. lia.
  - apply Nat.eqb_neq. lia.
  - apply Nat.eqb_neq. lia.
Qed.

Lemma is_space_not_comma c : Js.is_space c = true -> Ascii.eqb "," c = false.
Proof.
  intros H. destruct (Ascii.eqb_spec "," c) as [<-|]; [discriminate H | reflexivity].
Qed.

(** A string that starts like a number parses. *)
Lemma read_digits_count s acc n :
  (n <= snd (fst (Js.read_digits s acc n)))%nat.
Proof.
  revert acc n. induction s as [|c s IH]; intros acc n; cbn; [lia|].
  destruct (Js.is_digit c); cbn; [|lia].
  specialize (IH (10 * acc + Js.digit_val c) (S n)). lia.
Qed.

Lemma read_digits_digit c s :
  Js.is_digit c = true ->
  (snd (fst (Js.read_digits (String c s) 0 0)) =? 0)%nat = false.
Proof.
  intros H. cbn. rewrite H. apply Nat.eqb_neq.
  pose proof (read_digits_count s (10 * 0 + Js.digit_val c) 1). lia.
Qed.

Lemma parseFloat_number w :
  heads_number (Js.trim_start w) = true -> exists q, Js.parseFloat w = Some q.
Proof.
  unfold heads_number, Js.parseFloat.
  destruct (Js.trim_start w) as [|c r]; [discriminate|].
  destruct (Ascii.eqb_spec c "-") as [->|Hm].
  - destruct r as [|d r']; [discriminate|]. intros H.
    pose proof (read_digits_digit d r' H) as N.
    destruct (Js.read_digits (String d r') 0 0) as [[ip ni] rest].
    cbn [fst snd] in N.
    destruct (match rest with
              | String c r'0 =>
                  if Ascii.eqb c "." then Js.read_digits r'0 0 0%nat
                  else (0, 0%nat, rest)
              | EmptyString => (0, 0%nat, rest)
              end) as [[fp nf] rest'].
    rewrite N. cbn. eauto.
  - intros H.
    assert (Ascii.eqb c "+" = false) as ->.
    { destruct (Ascii.eqb_spec c "+") as [->|]; [discriminate H | reflexivity]. }
    pose proof (read_digits_digit c r H) as N.
    destruct (Js.read_digits (String c r) 0 0) as [[ip ni] rest].
    cbn [fst snd] in N.
    destruct (match rest with
              | String c r'0 =>
                  if Ascii.eqb c "." then Js.read_digits r'0 0 0%nat
                  else (0, 0%nat, rest)
              | EmptyString => (0, 0%nat, rest)
              end) as [[fp nf] rest'].
    rewrite N. cbn. eauto.
Qed.

Lemma heads_number_tight w : heads_number w = true -> Js.trim_start w = w.
Proof.
  destruct w as [|c r]; [discriminate|]. cbn.
  destruct (Ascii.eqb_spec c "-") as [->|_]; [reflexivity|].
  intros H. now rewrite (is_digit_not_space _ H).
Qed.

Lemma prefix_cons a s b t :
  String.prefix (String a s) (String b t) = true -> a = b /\ String.prefix s t = true.
Proof. cbn. destruct (ascii_dec a b); [auto | discriminate]. Qed.

Lemma heads_number_prefix r r' :
  String.prefix r r' = true -> heads_number r = true -> heads_number r' = true.
Proof.
  destruct r as [|c r]; [discriminate 2|].
  destruct r' as [|c' r']; [discriminate 1|].
  intros P. apply prefix_cons in P as [<- P]. cbn.
  destruct (Ascii.eqb c "-"); [|trivial].
  destruct r as [|d r]; [discriminate 1|].
  destruct r' as [|d' r']; [discriminate P|].
  now apply prefix_cons in P as [<- _].
Qed.

Lemma skip_digits_stops s d x :
  Js.skip_digits s = String d x -> Js.is_digit d = false.
Proof.
  induction s as [|c s IH]; [discriminate|]. cbn.
  destruct (Js.is_digit c) eqn:E; [exact IH|]. now intros [= <- _].
Qed.

Lemma skip_digits_prefix t u c r :
  String.prefix t u = true ->
  Js.skip_digits t = String c r ->
  exists r', Js.skip_digits u = String c r' /\ String.prefix r r' = true.
Proof.
  revert u. induction t as [|a t IH]; intros u P H; [discriminate H|].
  destruct u as [|b u]; [discriminate P|].
  apply prefix_cons in P as [<- P]. cbn in *.
  destruct (Js.is_digit a); [now apply IH|].
  injection H as <- <-. eauto.
Qed.

(** What the matcher finds in a string it finds in every extension. *)
Lemma match_decimal_prefix t u c r :
  String.prefix t u = true ->
  Js.match_decimal t = Some (String c r) ->
  exists r', Js.match_decimal u = Some (String c r') /\ String.prefix r r' = true.
Proof.
  intros P H. unfold Js.match_decimal in *.
  set (t1 := match t with
             | String c0 r0 => if Ascii.eqb c0 "-" then r0 else t
             | EmptyString => t
             end) in *.
  set (u1 := match u with
             | String c0 r0 => if Ascii.eqb c0 "-" then r0 else u
             | EmptyString => u
             end).
  assert (String.prefix t1 u1 = true) as P1.
  { subst t1 u1. destruct t as [|a t]; [discriminate H|].
    destruct u as [|b u]; [discriminate P|].
    pose proof P as P'. apply prefix_cons in P' as [<- P'].
    now destruct (Ascii.eqb a "-"). }
  clearbody t1 u1. clear P.
  destruct t1 as [|a t1]; [discriminate H|].
  destruct u1 as [|b u1]; [discriminate P1|].
  apply prefix_cons in P1 as [<- P1].
  destruct (Js.is_digit a); [|discriminate H].
  injection H as H.
  destruct (Js.skip_digits t1) as [|d x] eqn:E1; [discriminate H|].
  destruct (skip_digits_prefix _ _ _ _ P1 E1) as (x' & E1' & Px).
  rewrite E1'. destruct (Ascii.eqb d ".").
  - destruct (skip_digits_prefix _ _ _ _ Px H) as (r' & -> & Pr). eauto.
  - pose proof (skip_digits_stops _ _ _ E1) as Nd.
    cbn in H. rewrite Nd in H. injection H as <- <-.
    cbn. rewrite Nd. eauto.
Qed.

Lemma match_decimal_heads s x :
  Js.match_decimal s = Some x -> heads_number s = true.
Proof.
  unfold Js.match_decimal, heads_number.
  destruct s as [|c r]; [discriminate|].
  destruct (Ascii.eqb c "-").
  - destruct r as [|d r']; [discriminate|]. now destruct (Js.is_digit d).
  - now destruct (Js.is_digit c).
Qed.

Lemma trim_end_prefix u : String.prefix (Js.trim_end u) u = true.
Proof.
  induction u as [|c u IH]; [reflexivity|]. cbn.
  destruct (Js.trim_end u) as [|d t].
  - destruct (Js.is_space c); [reflexivity|]. cbn.
    now destruct (ascii_dec c c).
  - cbn. destruct (ascii_dec c c); [exact IH | congruence].
Qed.

Lemma loose_pattern_of_pattern t :
  Js.coordinate_pattern t = true -> loose_pattern t = true.
Proof.
  unfold Js.coordinate_pattern, loose_pattern.
  destruct (Js.match_decimal t) as [[|c r]|]; try discriminate.
  intros H. apply andb_true_iff in H as [-> H]. cbn.
  destruct (Js.match_decimal r) as [x|] eqn:E; [|discriminate].
  eapply match_decimal_heads, E.
Qed.

Lemma loose_pattern_prefix t u :
  String.prefix t u = true -> loose_pattern t = true -> loose_pattern u = true.
Proof.
  unfold loose_pattern. intros P H.
  destruct (Js.match_decimal t) as [[|c r]|] eqn:E; try discriminate.
  apply andb_true_iff in H as [Hc Hr].
  destruct (match_decimal_prefix _ _ _ _ P E) as (r' & -> & Pr).
  rewrite Hc. cbn. eapply heads_number_prefix; eauto.
Qed.

(** Splitting at commas. *)
Lemma split_nonempty c s : Js.split c s <> [].
Proof.
  destruct s as [|d s]; cbn; [discriminate|].
  destruct (Ascii.eqb c d); [discriminate|].
  destruct (Js.split c s); discriminate.
Qed.

Lemma split_cons d s :
  Ascii.eqb "," d = false ->
  Js.split "," (String d s)
  = match Js.split "," s with
    | w :: ws => String d w :: ws
    | [] => [String d EmptyString]
    end.
Proof. intros H. cbn [Js.split]. now rewrite H. Qed.

Lemma comma_not_digit c : Js.is_digit c = true -> Ascii.eqb "," c = false.
Proof. intros H. rewrite Ascii.eqb_sym. now apply is_digit_not_comma. Qed.

Lemma split_heads s :
  heads_number s = true ->
  exists w ws, Js.split "," s = w :: ws /\ heads_number w = true.
Proof.
  destruct s as [|c r]; [discriminate|]. cbn [heads_number].
  destruct (Ascii.eqb_spec c "-") as [->|Hm].
  - destruct r as [|d r']; [discriminate|]. intros H.
    rewrite split_cons by reflexivity.
    rewrite (split_cons d) by now apply comma_not_digit.
    destruct (Js.split "," r') as [|w ws];
      (eexists; eexists; split; [reflexivity | exact H]).
  - intros H. rewrite split_cons by now apply comma_not_digit.
    apply Ascii.eqb_neq in Hm.
    destruct (Js.split "," r) as [|w ws];
      (eexists; eexists; split; [reflexivity | cbn; now rewrite Hm]).
Qed.

Lemma second_ok_cons d s :
  Ascii.eqb "," d = false ->
  second_ok (Js.split "," (String d s)) = second_ok (Js.split "," s).
Proof.
  intros H. cbn [Js.split]. rewrite H.
  pose proof (split_nonempty "," s).
  now destruct (Js.split "," s).
Qed.

Lemma second_ok_skip_digits s :
  second_ok (Js.split "," (Js.skip_digits s)) = true ->
  second_ok (Js.split "," s) = true.
Proof.
  induction s as [|c s IH]; [trivial|]. cbn [Js.skip_digits].
  destruct (Js.is_digit c) eqn:E; [|trivial].
  intros H. rewrite second_ok_cons; [now apply IH|].
  now apply comma_not_digit.
Qed.

Lemma second_ok_comma c r :
  Ascii.eqb c "," = true -> heads_number r = true ->
  second_ok (Js.split "," (String c r)) = true.
Proof.
  intros Hc H. apply Ascii.eqb_eq in Hc as ->. cbn.
  destruct (split_heads r H) as (w & ws & -> & Hw). exact Hw.
Qed.

Lemma loose_pattern_fields u :
  loose_pattern u = true -> fields_tight (Js.split "," u) = true.
Proof.
  unfold loose_pattern. intros H.
  destruct (Js.match_decimal u) as [[|c r]|] eqn:E; try discriminate.
  apply andb_true_iff in H as [Hc Hr].
  assert (second_ok (Js.split "," u) = true) as S.
  { unfold Js.match_decimal in E.
    assert (forall v,
               match v with
               | String a r0 =>
                   if Js.is_digit a then
                     Some (Js.skip_digits
                             match Js.skip_digits r0 with
                             | String d t => if Ascii.eqb d "." then t else Js.skip_digits r0
                             | EmptyString => Js.skip_digits r0
                             end)
                   else None
               | EmptyString => None
               end = Some (String c r) ->
               second_ok (Js.split "," v) = true) as K.
    { intros [|a r0]; [discriminate|].
      destruct (Js.is_digit a) eqn:Da; [|discriminate]. intros [= H].
      rewrite second_ok_cons by now apply comma_not_digit.
      apply second_ok_skip_digits.
      destruct (Js.skip_digits r0) as [|d t] eqn:E1; [discriminate H|].
      destruct (Ascii.eqb_spec d ".") as [->|Nd].
      - rewrite second_ok_cons by reflexivity.
        apply second_ok_skip_digits. rewrite H. now apply second_ok_comma.
      - apply second_ok_skip_digits. rewrite H. now apply second_ok_comma. }
    destruct u as [|a u']; [discriminate E|].
    destruct (Ascii.eqb_spec a "-") as [->|Na].
    - rewrite second_ok_cons by reflexivity. now apply K.
    - now apply K. }
  destruct (split_heads u (match_decimal_heads _ _ E)) as (w & ws & Ew & Hw).
  rewrite Ew in *. destruct ws as [|w2 ws]; [discriminate S|].
  cbn in *. now rewrite Hw, S.
Qed.

Lemma fields_ok_trim_start s :
  fields_tight (Js.split "," (Js.trim_start s)) = true ->
  fields_ok (Js.split "," s) = true.
Proof.
  induction s as [|c s IH].
  - discriminate.
  - cbn [Js.trim_start]. destruct (Js.is_space c) eqn:Sc.
    + intros H. specialize (IH H). cbn [Js.split].
      rewrite (is_space_not_comma _ Sc).
      destruct (Js.split "," s) as [|w1 [|w2 ws]]; try discriminate IH.
      cbn in *. now rewrite Sc.
    + destruct (Js.split "," (String c s)) as [|w1 [|w2 ws]]; try discriminate.
      cbn. intros H. apply andb_true_iff in H as [H1 H2].
      now rewrite (heads_number_tight _ H1), H1, H2.
Qed.

(** Both components of a string that passes the test parse. *)
Theorem coordinates_parse location :
  Js.coordinate_pattern (Js.trim location) = true ->
  exists lat lng rest,
    List.map Js.parseFloat (Js.split "," location) = Some lat :: Some lng :: rest.
Proof.
  intros H. unfold Js.trim in H.
  apply loose_pattern_of_pattern in H.
  apply (loose_pattern_prefix _ _ (trim_end_prefix _)) in H.
  apply loose_pattern_fields, fields_ok_trim_start in H.
  destruct (Js.split "," location) as [|w1 [|w2 ws]]; try discriminate H.
  cbn in H. apply andb_true_iff in H as [H1 H2].
  destruct (parseFloat_number w1 H1) as (a & Ea).
  destruct (parseFloat_number w2) as (b & Eb).
  { now rewrite (heads_number_tight _ H2). }
  cbn. rewrite Ea, Eb. eauto.
Qed.

(** The branch [throw new Error('Invalid coordinate format')] is never
    taken. *)
Theorem resolve_location_never_invalid W location st :
  fst (resolve_location W location st) <> Thrown InvalidCoordinates.
Proof.
  destruct (Js.includes "," location && Js.coordinate_pattern (Js.trim location))
    eqn:G.
  - unfold resolve_location. rewrite G.
    apply andb_true_iff in G as [_ G].
    destruct (coordinates_parse _ G) as (a & b & rest & ->). discriminate.
  - rewrite (resolve_location_geocode _ _ _ G).
    destruct (geocode_api W location) as [msg|data]; [discriminate|].
    destruct (String.eqb (geo_status data) "OK"), (geo_results data);
      destruct (String.eqb (geo_status data) "ZERO_RESULTS"); discriminate.
Qed.

End Coordinates.


(** * Further properties of the handler *)

(** ** The calls of a request *)

Section Calls.

Variable W : World.
Variable key : string.
Variable req : SearchParams.

Lemma get_aiSummary_calls rd st :
  calls (snd (get_aiSummary W req rd st)) = calls st
  \/ (reviewTexts (rd_reviews rd) <> []
      /\ calls (snd (get_aiSummary W req rd st))
         = calls st
           ++ [EvGenerate (analysisPrompt req rd (reviewTexts (rd_reviews rd)))]).
Proof.
  destruct (fresh_summary W st (rd_place_id rd)) as [row|] eqn:H.
  - left. now rewrite (get_aiSummary_cached _ _ _ _ _ H).
  - destruct (reviewTexts (rd_reviews rd)) as [|t ts] eqn:E.
    + left. now rewrite (get_aiSummary_skip _ _ _ _ H E).
    + right. split; [discriminate|].
      rewrite get_aiSummary_generate; [|exact H|now rewrite E]. rewrite E.
      destruct (generate_summary_cases W req rd (t :: ts) st) as [G|[a G]];
        rewrite G; reflexivity.
Qed.

Lemma process_place_calls place st :
  exists new,
    calls (snd (process_place W key req place st)) = calls st ++ new
    /\ candidate_calls req place new.
Proof.
  assert (exists d,
             calls (snd (get_restaurantData W key place st)) = calls st ++ d
             /\ (d = [] \/ d = [EvDetails (pl_place_id place)])) as (d & Ed & Hd).
  { destruct (get_restaurantData_calls W key place st) as [[_ E]|[_ E]].
    - exists []. rewrite app_nil_r. auto.
    - eauto. }
  destruct (get_restaurantData W key place st) as [[[rd|]|e] st1] eqn:H;
    cbn [snd] in Ed.
  - rewrite (process_place_found _ _ _ _ _ _ _ H).
    pose proof (get_aiSummary_calls rd st1) as C.
    destruct (get_aiSummary W req rd st1) as [[v|e] st'];
      cbn [snd] in *;
      (destruct C as [C|[N C]];
       [ exists d; rewrite C, Ed; split; [reflexivity|];
         exists d, []; rewrite app_nil_r; auto
       | eexists; rewrite C, Ed, <- app_assoc; split; [reflexivity|];
         eexists; eexists; split; [reflexivity|]; split; [exact Hd|];
         right; exists rd; auto ]).
  - rewrite (process_place_null _ _ _ _ _ _ H). cbn [snd].
    exists d. split; [exact Ed|]. exists d, []. rewrite app_nil_r. auto.
  - rewrite (process_place_dropped _ _ _ _ _ _ _ H); [|congruence..]. cbn [snd].
    exists d. split; [exact Ed|]. exists d, []. rewrite app_nil_r. auto.
Qed.

Lemma mapM_calls l st :
  exists news,
    calls (snd (mapM (process_place W key req) l st)) = calls st ++ concat news
    /\ Forall2 (candidate_calls req) l news.
Proof.
  revert st. induction l as [|place l IH]; intros st.
  - exists []. cbn. rewrite app_nil_r. split; [reflexivity | constructor].
  - destruct (process_place_calls place st) as (new & En & Hn).
    destruct (process_place_returns W key req place st) as (res & st1 & P).
    rewrite P in En. cbn [snd] in En.
    destruct (IH st1) as (news & E & F).
    exists (new :: news). split; [|now constructor].
    cbn [mapM concat]. unfold bind at 1. rewrite P. unfold bind at 1.
    destruct (mapM (process_place W key req) l st1) as [[ys|e] st2];
      cbn [snd ret] in *; now rewrite E, En, <- app_assoc.
Qed.

End Calls.

Section RequestCalls.

Variable W : World.
Variable req : SearchParams.

Lemma count_calls_app kind l1 l2 :
  count_calls kind (l1 ++ l2) = (count_calls kind l1 + count_calls kind l2)%nat.
Proof. unfold count_calls. now rewrite List.filter_app, length_app. Qed.

Lemma candidate_calls_counts place new :
  candidate_calls req place new ->
  (count_calls is_details new <= 1)%nat
  /\ (count_calls is_generate new <= 1)%nat
  /\ count_calls is_geocode new = 0%nat
  /\ count_calls is_nearby new = 0%nat.
Proof.
  intros (d & g & -> & [->| ->] & [->|(rd & _ & ->)]); cbn; repeat split; lia.
Qed.

Lemma concat_counts places news :
  Forall2 (candidate_calls req) places news ->
  (count_calls is_details (concat news) <= length places)%nat
  /\ (count_calls is_generate (concat news) <= length places)%nat
  /\ count_calls is_geocode (concat news) = 0%nat
  /\ count_calls is_nearby (concat news) = 0%nat.
Proof.
  induction 1 as [|place new places news H _ IH]; [cbn; repeat split; lia|].
  cbn [concat length]. rewrite !count_calls_app.
  destruct (candidate_calls_counts _ _ H) as (A & B & C & D).
  destruct IH as (A' & B' & C' & D'). repeat split; lia.
Qed.

(** The location stage leaves the state alone or logs one geocoding
    call. *)
Lemma resolve_location_state location st :
  snd (resolve_location W location st) = st
  \/ snd (resolve_location W location st) = with_call st (EvGeocode location).
Proof.
  destruct (Js.includes "," location && Js.coordinate_pattern (Js.trim location))
    eqn:G.
  - left. unfold resolve_location. rewrite G.
    now destruct (List.map Js.parseFloat (Js.split "," location))
      as [|[a|] [|[b|] l]].
  - right. rewrite (resolve_location_geocode _ _ _ G).
    destruct (geocode_api W location) as [msg|data]; [reflexivity|].
    destruct (String.eqb (geo_status data) "OK"), (geo_results data);
      now destruct (String.eqb (geo_status data) "ZERO_RESULTS").
Qed.

(** The log of a request: the calls of the two stages, then the calls of
    the candidates, candidate by candidate. *)
Lemma search_restaurants_calls st :
  exists g n places news,
    calls (snd (search_restaurants W req st)) = calls st ++ (g ++ n) ++ concat news
    /\ (g = [] \/ g = [EvGeocode (location req)])
    /\ (n = [] \/ exists q, n = [EvNearbySearch q])
    /\ Forall2 (candidate_calls req) places news
    /\ (length places <= 25)%nat.
Proof.
  destruct (missing (GOOGLE_PLACES_API_KEY W) || missing (GEMINI_API_KEY W))
    eqn:K.
  { exists [], [], [], []. unfold search_restaurants. rewrite K. cbn.
    rewrite app_nil_r. repeat split; auto; first [cbn; lia | constructor]. }
  rewrite (search_restaurants_stages _ _ _ K).
  assert (exists g,
             calls (snd (resolve_location W (location req) st)) = calls st ++ g
             /\ (g = [] \/ g = [EvGeocode (location req)])) as (g & Eg & Hg).
  { destruct (resolve_location_state (location req) st) as [E|E]; rewrite E.
    - exists []. rewrite app_nil_r. auto.
    - eauto. }
  destruct (resolve_location W (location req) st) as [[coordinates|e] st1];
    cbn [snd] in Eg.
  2:{ exists g, [], [], []. cbn [snd concat]. rewrite !app_nil_r.
      repeat split; auto; first [cbn; lia | constructor]. }
  cbv zeta.
  set (q := places_query req coordinates).
  assert (calls (with_call st1 (EvNearbySearch q))
          = calls st ++ (g ++ [EvNearbySearch q]) ++ concat []) as Es.
  { cbn. now rewrite Eg, app_nil_r, app_assoc. }
  destruct (nearbysearch_api W q) as [msg|pd].
  { exists g, [EvNearbySearch q], [], []. cbn [snd].
    repeat split; eauto; first [cbn; lia | constructor]. }
  destruct (negb (String.eqb (places_status pd) "OK")).
  { exists g, [EvNearbySearch q], [], []. cbn [snd].
    repeat split; eauto; first [cbn; lia | constructor]. }
  unfold enrich.
  destruct (mapM_calls W (default EmptyString (GOOGLE_PLACES_API_KEY W)) req
              (firstn 25 (places_results pd)) (with_call st1 (EvNearbySearch q)))
    as (news & E & F).
  exists g, [EvNearbySearch q], (firstn 25 (places_results pd)), news.
  split; [|repeat split; eauto; apply firstn_le_length].
  destruct (mapM (process_place W (default EmptyString (GOOGLE_PLACES_API_KEY W)) req)
              (firstn 25 (places_results pd)) (with_call st1 (EvNearbySearch q)))
    as [[results|e] st3]; cbn [snd] in *;
    rewrite E; cbn; rewrite Eg, <- !app_assoc; reflexivity.
Qed.

(** One request makes at most one geocoding call, one nearby search, 25
    details calls and 25 summarisation calls. *)
Theorem request_call_budget st :
  let new := new_calls st (snd (search_restaurants W req st)) in
  (count_calls is_geocode new <= 1)%nat
  /\ (count_calls is_nearby new <= 1)%nat
  /\ (count_calls is_details new <= 25)%nat
  /\ (count_calls is_generate new <= 25)%nat.
Proof.
  destruct (search_restaurants_calls st) as (g & n & places & news & E & Hg & Hn & F & L).
  cbv zeta. rewrite (new_calls_app _ _ _ E). rewrite !count_calls_app.
  destruct (concat_counts _ _ F) as (A & B & C & D).
  destruct Hg as [->| ->], Hn as [->|(q & ->)]; cbn; repeat split; lia.
Qed.

(** The calls of the location and search stages come first: once a
    details or summarisation call is in the log, no geocoding call and no
    nearby search follows. *)
Theorem request_call_order st :
  exists stage rest,
    new_calls st (snd (search_restaurants W req st)) = stage ++ rest
    /\ Forall (fun e => is_geocode e || is_nearby e = true) stage
    /\ Forall (fun e => is_details e || is_generate e = true) rest.
Proof.
  destruct (search_restaurants_calls st) as (g & n & places & news & E & Hg & Hn & F & L).
  exists (g ++ n), (concat news). rewrite (new_calls_app _ _ _ E).
  split; [reflexivity|]. split.
  - apply Forall_app. split.
    + destruct Hg as [->| ->]; repeat constructor.
    + destruct Hn as [->|(q & ->)]; repeat constructor.
  - clear - F. induction F as [|place new places news H _ IH]; [constructor|].
    cbn. apply Forall_app. split; [|exact IH].
    destruct H as (d & g & -> & [->| ->] & [->|(rd & _ & ->)]);
      repeat constructor.
Qed.

End RequestCalls.

(** ** What the generator is asked *)

Lemma reviewTexts_bounds reviews :
  (length (reviewTexts reviews) <= 12)%nat
  /\ Forall (fun t => (20 < String.length t)%nat) (reviewTexts reviews).
Proof.
  unfold reviewTexts. split.
  - rewrite length_map. apply firstn_le_length.
  - apply List.Forall_forall. intros t Ht.
    apply in_map_iff in Ht as (review & <- & Hr).
    assert (In review (List.filter qualifying reviews)) as Hf.
    { rewrite <- (firstn_skipn 12 (List.filter qualifying reviews)).
      apply in_or_app. now left. }
    apply filter_In in Hf as [_ Q]. unfold qualifying in Q.
    apply andb_true_iff in Q as [_ Q]. now apply Nat.ltb_lt in Q.
Qed.

(** Every summarisation call of a request carries between 1 and 12
    review texts, each longer than 20 characters, and the filters of the
    request with their defaults. *)
Theorem generator_prompt_reviews W req st p :
  In (EvGenerate p) (new_calls st (snd (search_restaurants W req st))) ->
  (1 <= length (pr_reviews p) <= 12)%nat
  /\ Forall (fun t => (20 < String.length t)%nat) (pr_reviews p)
  /\ pr_veg_only p = default false (veg_only req)
  /\ pr_jain_food p = default false (jain_food req)
  /\ pr_menu p = default [] (menu req).
Proof.
  intros H.
  destruct (search_restaurants_calls W req st)
    as (g & n & places & news & E & Hg & Hn & F & _).
  rewrite (new_calls_app _ _ _ E) in H.
  apply in_app_or in H as [H|H].
  { apply in_app_or in H as [H|H].
    - destruct Hg as [->| ->]; [destruct H | destruct H as [[=]|[]]].
    - destruct Hn as [->|(q & ->)]; [destruct H | destruct H as [[=]|[]]]. }
  assert (exists rd,
             reviewTexts (rd_reviews rd) <> []
             /\ p = analysisPrompt req rd (reviewTexts (rd_reviews rd)))
    as (rd & N & ->).
  { clear - F H. induction F as [|place new places news C _ IH]; [destruct H|].
    cbn in H. apply in_app_or in H as [H|H]; [|now apply IH].
    destruct C as (d & g & -> & Hd & Hg).
    apply in_app_or in H as [H|H].
    - destruct Hd as [->| ->]; [destruct H | destruct H as [[=]|[]]].
    - destruct Hg as [->|(rd & N & ->)]; [destruct H|].
      destruct H as [[= <-]|[]]. eauto. }
  cbn. destruct (reviewTexts_bounds (rd_reviews rd)) as [L A].
  repeat split; auto.
  destruct (reviewTexts (rd_reviews rd)); [now elim N | cbn; lia].
Qed.

Lemma generator_prompt_reviews_witness :
  exists p,
    In (EvGenerate p) (calls Demo.final_state)
    /\ pr_reviews p = ["Crisp dosa, quick service, fair prices."%string]
    /\ Forall (fun t => (20 < String.length t)%nat) (pr_reviews p).
Proof.
  eexists. split; [|split].
  - vm_compute. do 3 right. left. reflexivity.
  - reflexivity.
  - refine (proj1 (proj2 (generator_prompt_reviews Demo.world Demo.request
                            Demo.empty_state _ _))).
    vm_compute. do 3 right. left. reflexivity.
Defined.

(** ** The shape of every response *)

Lemma filter_Boolean_length {A} (l : list (option A)) :
  (length (filter_Boolean l) <= length l)%nat.
Proof. induction l as [|[x|] l IH]; cbn; lia. Qed.

Lemma rankedRestaurants_length max_price l :
  length (rankedRestaurants max_price l) = length l.
Proof.
  rewrite (Permutation_length (rankedRestaurants_perm max_price l)).
  apply length_map.
Qed.

(** What the [try] block returns is a result list of at most 25
    restaurants with its length. *)
Lemma search_restaurants_returns W req st b st' :
  search_restaurants W req st = (Returned b, st') ->
  exists rs loc,
    b = SearchOk rs loc (Z.of_nat (length rs)) /\ (length rs <= 25)%nat.
Proof.
  intros H.
  destruct (missing (GOOGLE_PLACES_API_KEY W) || missing (GEMINI_API_KEY W))
    eqn:K.
  { unfold search_restaurants in H. rewrite K in H. discriminate. }
  rewrite (search_restaurants_stages _ _ _ K) in H.
  destruct (resolve_location W (location req) st) as [[coordinates|e] st1];
    [|discriminate].
  cbv zeta in H.
  destruct (nearbysearch_api W (places_query req coordinates)) as [msg|pd];
    [discriminate|].
  destruct (negb (String.eqb (places_status pd) "OK")); [discriminate|].
  unfold enrich in H.
  destruct (mapM_process_place W (default EmptyString (GOOGLE_PLACES_API_KEY W))
              req (firstn 25 (places_results pd))
              (with_call st1 (EvNearbySearch (places_query req coordinates))))
    as (results & st3 & E & F & _).
  rewrite E in H. injection H as <- <-.
  eexists. eexists. split; [reflexivity|].
  rewrite rankedRestaurants_length.
  etransitivity; [apply filter_Boolean_length|].
  rewrite <- (Forall2_length _ _ _ F). apply firstn_le_length.
Qed.

(** Every response has one of three shapes: the empty answer to a
    preflight request, status 200; a result list of at most 25
    restaurants together with its length, status 200; or an error message
    with an empty list and a count of 0, status 500. *)
Theorem response_shape W rq st :
  (method rq = "OPTIONS"%string
   /\ fst (serve W rq st) = {| status := 200; body := NoBody |})
  \/ (exists rs loc,
        fst (serve W rq st)
        = {| status := 200; body := SearchOk rs loc (Z.of_nat (length rs)) |}
        /\ (length rs <= 25)%nat)
  \/ (exists e,
        fst (serve W rq st)
        = {| status := 500; body := SearchFailed (message e) [] 0 |}).
Proof.
  unfold serve. destruct (String.eqb_spec (method rq) "OPTIONS") as [M|M].
  - left. now split.
  - right.
    destruct (search_restaurants W (json rq) st) as [[b|e] st'] eqn:H.
    + left. destruct (search_restaurants_returns _ _ _ _ _ H) as (rs & loc & -> & L).
      eauto.
    + right. eauto.
Qed.

(** ** The coordinate branch *)

Lemma split_without_separator s :
  Js.includes "," s = false -> Js.split "," s = [s].
Proof.
  induction s as [|c s IH]; [reflexivity|]. cbn [Js.includes Js.split].
  destruct (Ascii.eqb "," c); [intros [=]|]. intros H. now rewrite (IH H).
Qed.

(** A location that passes the pattern is answered from the string
    itself: both numbers parse, no call is made and the state is left as
    it is. *)
Theorem coordinates_need_no_lookup W location st :
  Js.coordinate_pattern (Js.trim location) = true ->
  exists lat lng rest,
    List.map Js.parseFloat (Js.split "," location) = Some lat :: Some lng :: rest
    /\ resolve_location W location st = (Returned {| lat := lat; lng := lng |}, st).
Proof.
  intros H. destruct (coordinates_parse _ H) as (a & b & rest & E).
  exists a, b, rest. split; [exact E|].
  unfold resolve_location. rewrite H, E.
  destruct (Js.includes "," location) eqn:I; [reflexivity|].
  rewrite (split_without_separator _ I) in E. discriminate.
Qed.

Lemma coordinates_need_no_lookup_witness :
  resolve_location Demo.world " 12.97,-77.59 " Demo.empty_state
  = (Returned {| lat := 1297 # 100; lng := -7759 # 100 |}, Demo.empty_state).
Proof.
  destruct (coordinates_need_no_lookup Demo.world " 12.97,-77.59 " Demo.empty_state)
    as (a & b & rest & E & R).
  - reflexivity.
  - rewrite R. vm_compute in E. injection E as <- <- _. reflexivity.
Defined.


(** ** Cache hits and round trips *)

Section Cache.

Variable W : World.
Variable key : string.
Variable req : SearchParams.

Lemma process_place_cached place st row srow :
  fresh_venue W st (pl_place_id place) = Some row ->
  fresh_summary W st (rd_place_id row) = Some srow ->
  process_place W key req place st
  = (Returned (Some (result_of row (Some (view_of_row srow)))), st).
Proof.
  intros V S.
  rewrite (process_place_found _ _ _ _ _ _ _ (get_restaurantData_hit _ _ _ _ _ V)).
  now rewrite (get_aiSummary_cached _ _ _ _ _ S).
Qed.

Lemma mapM_fully_cached l st :
  Forall (fully_cached W st) l ->
  exists results,
    mapM (process_place W key req) l st = (Returned results, st)
    /\ length results = length l
    /\ Forall (fun o => exists r, o = Some r /\ ai_summary r <> None) results.
Proof.
  induction 1 as [|place l (row & srow & V & S) _ (results & E & L & F)].
  - exists []. repeat split; constructor.
  - eexists. cbn [mapM]. unfold bind at 1.
    rewrite (process_place_cached _ _ _ _ V S). unfold bind at 1. rewrite E.
    split; [reflexivity|]. split; [cbn; now rewrite L|].
    constructor; [|exact F]. eexists. split; [reflexivity | discriminate].
Qed.

(** The second look at a venue that was just fetched is a cache hit: it
    makes no call and returns the row the upsert left. The provider has
    to answer with the place identifier it was asked for. *)
Theorem venue_cache_round_trip place st details :
  fresh_venue W st (pl_place_id place) = None ->
  details_answer W (pl_place_id place) details ->
  pd_place_id details = pl_place_id place ->
  let fetched := restaurantData_of W key details in
  let st' := snd (get_restaurantData W key place st) in
  get_restaurantData W key place st = (Returned (Some fetched), st')
  /\ new_calls st st' = [EvDetails (pl_place_id place)]
  /\ get_restaurantData W key place st'
     = (Returned
          (Some (venue_row (restaurants_tbl st !! pl_place_id place) fetched)),
        st').
Proof.
  intros F D I fetched st'. subst st'.
  rewrite (get_restaurantData_miss _ _ _ _ F). unfold details_answer in D.
  rewrite D. cbn [details_status details_result String.eqb negb snd].
  cbn -[restaurantData_of venue_row with_venue with_call].
  split; [reflexivity|]. split.
  - apply new_calls_app. reflexivity.
  - apply get_restaurantData_hit. unfold fresh_venue, with_venue.
    cbn -[restaurantData_of venue_row]. fold fetched.
    replace (rd_place_id fetched) with (pl_place_id place)
      by (subst fetched; cbn; congruence).
    rewrite lookup_insert_eq. cbn [venue_row rd_cached_at].
    subst fetched. cbn [restaurantData_of rd_cached_at].
    now rewrite fresh_now.
Qed.

(** A venue whose details carry another place identifier than the
    candidate is cached under that other identifier: the next look at
    the candidate misses again, unless a row of the candidate's own
    identifier was there. *)
Theorem venue_cache_other_identifier place st details :
  fresh_venue W st (pl_place_id place) = None ->
  details_answer W (pl_place_id place) details ->
  pd_place_id details <> pl_place_id place ->
  let st' := snd (get_restaurantData W key place st) in
  fresh_venue W st' (pl_place_id place) = None
  /\ fresh_venue W st' (pd_place_id details)
     = Some (venue_row (restaurants_tbl st !! pd_place_id details)
               (restaurantData_of W key details)).
Proof.
  intros F D N st'. subst st'.
  rewrite (get_restaurantData_miss _ _ _ _ F). unfold details_answer in D.
  rewrite D. cbn [details_status details_result String.eqb negb snd].
  cbn -[restaurantData_of venue_row with_venue with_call].
  unfold fresh_venue in *. unfold with_venue.
  cbn [restaurants_tbl with_call restaurantData_of rd_place_id].
  split.
  - rewrite lookup_insert_ne by exact N. exact F.
  - rewrite lookup_insert_eq. cbn [venue_row rd_cached_at].
    now rewrite fresh_now.
Qed.

End Cache.

Lemma venue_cache_round_trip_witness :
  get_restaurantData Demo.world "gk" (Demo.place "p1")
    (snd (get_restaurantData Demo.world "gk" (Demo.place "p1") Demo.empty_state))
  = (Returned
       (Some (venue_row None (restaurantData_of Demo.world "gk" Demo2.p1_details))),
     snd (get_restaurantData Demo.world "gk" (Demo.place "p1") Demo.empty_state)).
Proof.
  refine (proj2 (proj2 (venue_cache_round_trip Demo.world "gk" (Demo.place "p1")
                          Demo.empty_state Demo2.p1_details _ _ _))).
  - reflexivity.
  - reflexivity.
  - reflexivity.
Defined.

Lemma venue_cache_other_identifier_witness :
  fresh_venue Demo2.world_other
    (snd (get_restaurantData Demo2.world_other "gk" (Demo.place "p1")
            Demo.empty_state))
    "p1"
  = None.
Proof.
  refine (proj1 (venue_cache_other_identifier Demo2.world_other "gk"
                   (Demo.place "p1") Demo.empty_state
                   (Demo.venue "zz" "Elsewhere" (Some 4%Q) (Some 2%Q) None) _ _ _)).
  - reflexivity.
  - reflexivity.
  - discriminate.
Defined.

Section SummaryCache.

Variable W : World.
Variable req : SearchParams.




End SummaryCache.



(** ** A request whose candidates are all cached *)

Lemma fully_cached_with_call W st e place :
  fully_cached W st place -> fully_cached W (with_call st e) place.
Proof. exact (fun H => H). Qed.

Lemma filter_Boolean_In_inv {A} (l : list (option A)) (x : A) :
  In x (filter_Boolean l) -> In (Some x) l.
Proof.
  induction l as [|[y|] l IH]; cbn; [easy| |].
  - intros [->|H]; [now left | right; now apply IH].
  - intros H. right. now apply IH.
Qed.

Lemma filter_Boolean_all {A} (P : A -> Prop) (l : list (option A)) :
  Forall (fun o => exists r, o = Some r /\ P r) l ->
  length (filter_Boolean l) = length l.
Proof.
  induction 1 as [|o l (r & -> & _) _ IH]; cbn; [reflexivity | now rewrite IH].
Qed.

(** When the venue row and the summary row of every candidate are fresh
    in the cache, the request makes no details call and no summarisation
    call and writes nothing: the state it leaves is the state after the
    nearby search. No candidate is dropped, and every restaurant of the
    response has a summary. *)
Theorem fully_cached_request W req st coordinates st1 placesData :
  missing (GOOGLE_PLACES_API_KEY W) || missing (GEMINI_API_KEY W) = false ->
  resolve_location W (location req) st = (Returned coordinates, st1) ->
  nearbysearch_api W (places_query req coordinates) = FetchJson placesData ->
  places_status placesData = "OK"%string ->
  Forall (fully_cached W st) (firstn 25 (places_results placesData)) ->
  exists rs,
    search_restaurants W req st
    = (Returned (SearchOk rs coordinates (Z.of_nat (length rs))),
       with_call st1 (EvNearbySearch (places_query req coordinates)))
    /\ length rs = length (firstn 25 (places_results placesData))
    /\ Forall (fun x => ai_summary (restaurant x) <> None) rs.
Proof.
  intros K R N S C.
  set (st2 := with_call st1 (EvNearbySearch (places_query req coordinates))).
  assert (Forall (fully_cached W st2) (firstn 25 (places_results placesData))) as C2.
  { eapply List.Forall_impl; [|exact C]. intros place H.
    apply fully_cached_with_call.
    pose proof (resolve_location_state W (location req) st) as [E|E];
      rewrite R in E; cbn [snd] in E; subst st1;
      [exact H | now apply fully_cached_with_call]. }
  destruct (mapM_fully_cached W (default EmptyString (GOOGLE_PLACES_API_KEY W))
              req _ _ C2) as (results & E & L & F).
  eexists. split; [|split].
  - rewrite (search_restaurants_stages _ _ _ K), R. cbv zeta. rewrite N, S.
    cbn [String.eqb negb]. unfold enrich. fold st2. rewrite E. reflexivity.
  - rewrite rankedRestaurants_length, <- L.
    apply (filter_Boolean_all (fun r => ai_summary r <> None)), F.
  - apply List.Forall_forall. intros x Hx.
    apply rankedRestaurants_In in Hx as (r & Hr & ->). cbn.
    apply filter_Boolean_In_inv in Hr.
    rewrite List.Forall_forall in F.
    destruct (F _ Hr) as (r' & [= <-] & A). exact A.
Qed.

Lemma fully_cached_request_witness :
  exists rs,
    search_restaurants Demo2.world_one Demo.request Demo2.warm_state
    = (Returned (SearchOk rs Demo.centre (Z.of_nat (length rs))),
       with_call (with_call Demo2.warm_state (EvGeocode "Bengaluru"))
         (EvNearbySearch (places_query Demo.request Demo.centre)))
    /\ length rs = 1%nat.
Proof.
  destruct (fully_cached_request Demo2.world_one Demo.request Demo2.warm_state
              Demo.centre (with_call Demo2.warm_state (EvGeocode "Bengaluru"))
              {| places_status := "OK"; places_results := [Demo.place "p1"] |})
    as (rs & E & L & _).
  - reflexivity.
  - reflexivity.
  - reflexivity.
  - reflexivity.
  - constructor; [|constructor].
    exists (Demo.cached_row "p1" 1000), (Demo.summary_of "p1").
    split; vm_compute; reflexivity.
  - exists rs. split; [exact E | exact L].
Defined.

(** ** Rows are never removed *)

(** A request never removes a row from either cache table: a row that was
    there is still there, unchanged or replaced by a row stamped now. *)
Theorem request_keeps_rows W req st :
  let st' := snd (search_restaurants W req st) in
  (forall k row,
      restaurants_tbl st !! k = Some row ->
      exists row',
        restaurants_tbl st' !! k = Some row'
        /\ (row' = row \/ rd_cached_at row' = Date_now W))
  /\ (forall k row,
        summaries_tbl st !! k = Some row ->
        exists row',
          summaries_tbl st' !! k = Some row'
          /\ (row' = row \/ sr_generated_at row' = Date_now W)).
Proof.
  cbv zeta. pose proof (search_restaurants_step W req st) as S. split.
  - intros k row H.
    destruct (step_venues _ _ _ S k) as [E|(row' & E & T)].
    + exists row. rewrite E. auto.
    + exists row'. auto.
  - intros k row H.
    destruct (step_summaries _ _ _ S k) as [E|(old & a & E)].
    + exists row. rewrite E. auto.
    + eexists. split; [exact E|]. right. reflexivity.
Qed.

Lemma request_keeps_rows_witness :
  exists row',
    summaries_tbl
      (snd (search_restaurants Demo.world Demo.request (Demo.state_with_summary "p9")))
    !! "p9" = Some row'
    /\ (row' = Demo.summary_of "p9" \/ sr_generated_at row' = Demo.now).
Proof.
  refine (proj2 (request_keeps_rows Demo.world Demo.request
                   (Demo.state_with_summary "p9")) "p9" (Demo.summary_of "p9") _).
  reflexivity.
Defined.


(** ** Invariants of the state and of the results *)

Section Invariant.

Variable W : World.
Variable req : SearchParams.

(** [I] is a property of the state that calls and upserts keep, [R] a
    property of results that follows from it. *)
Variable I : State -> Prop.
Variable R : Restaurant -> Prop.

Hypothesis I_call : forall st e, I st -> I (with_call st e).
Hypothesis I_venue :
  forall st key details, I st -> I (with_venue st (restaurantData_of W key details)).
Hypothesis I_summary :
  forall st analysis, I st -> I (with_summary st (aiSummary_of W analysis)).
Hypothesis R_result :
  forall st key rd v,
    I st ->
    ((exists k, restaurants_tbl st !! k = Some rd)
     \/ exists details, rd = restaurantData_of W key details) ->
    (v = None
     \/ (exists k row, summaries_tbl st !! k = Some row /\ v = Some (view_of_row row))
     \/ exists analysis, v = Some (view_of_summary (aiSummary_of W analysis))) ->
    R (result_of rd v).

Lemma fresh_venue_lookup st k row :
  fresh_venue W st k = Some row -> restaurants_tbl st !! k = Some row.
Proof.
  unfold fresh_venue. destruct (restaurants_tbl st !! k) as [r|]; [|discriminate].
  destruct (fresh W (rd_cached_at r)); [congruence | discriminate].
Qed.

Lemma fresh_summary_lookup st k row :
  fresh_summary W st k = Some row -> summaries_tbl st !! k = Some row.
Proof.
  unfold fresh_summary. destruct (summaries_tbl st !! k) as [r|]; [|discriminate].
  destruct (fresh W (sr_generated_at r)); [congruence | discriminate].
Qed.

Lemma get_restaurantData_invariant key place st :
  I st ->
  I (snd (get_restaurantData W key place st))
  /\ forall rd,
       fst (get_restaurantData W key place st) = Returned (Some rd) ->
       (exists k, restaurants_tbl (snd (get_restaurantData W key place st)) !! k
                  = Some rd)
       \/ exists details, rd = restaurantData_of W key details.
Proof.
  intros H. destruct (fresh_venue W st (pl_place_id place)) as [row|] eqn:F.
  - rewrite (get_restaurantData_hit _ _ _ _ _ F). cbn. split; [exact H|].
    intros rd [= <-]. left. eexists. eapply fresh_venue_lookup, F.
  - rewrite (get_restaurantData_miss _ _ _ _ F).
    destruct (details_api W (pl_place_id place)) as [msg|data];
      [split; [now apply I_call | discriminate]|].
    destruct (negb (String.eqb (details_status data) "OK"));
      [split; [now apply I_call | discriminate]|].
    destruct (details_result data) as [d|];
      [|split; [now apply I_call | discriminate]].
    cbn [fst snd]. split; [now apply I_venue, I_call|].
    intros rd [= <-]. right. eauto.
Qed.

Lemma get_aiSummary_invariant rd st :
  I st ->
  I (snd (get_aiSummary W req rd st))
  /\ forall v,
       fst (get_aiSummary W req rd st) = Returned v ->
       v = None
       \/ (exists k row, summaries_tbl st !! k = Some row /\ v = Some (view_of_row row))
       \/ exists analysis, v = Some (view_of_summary (aiSummary_of W analysis)).
Proof.
  intros H. destruct (fresh_summary W st (rd_place_id rd)) as [row|] eqn:F.
  - rewrite (get_aiSummary_cached _ _ _ _ _ F). cbn. split; [exact H|].
    intros v [= <-]. right. left. eexists. eexists.
    split; [eapply fresh_summary_lookup, F | reflexivity].
  - destruct (reviewTexts (rd_reviews rd)) as [|t ts] eqn:E.
    + rewrite (get_aiSummary_skip _ _ _ _ F E). cbn. split; [exact H|].
      intros v [= <-]. now left.
    + rewrite get_aiSummary_generate; [|exact F|now rewrite E]. rewrite E.
      destruct (generate_summary_cases W req rd (t :: ts) st) as [G|[a G]];
        rewrite G; cbn [fst snd].
      * split; [now apply I_call|]. intros v [= <-]. now left.
      * split; [now apply I_summary, I_call|].
        intros v [= <-]. right. right. eauto.
Qed.

Lemma process_place_invariant key place st :
  I st ->
  I (snd (process_place W key req place st))
  /\ forall r, fst (process_place W key req place st) = Returned (Some r) -> R r.
Proof.
  intros H.
  destruct (get_restaurantData_invariant key place st H) as [H1 P1].
  destruct (get_restaurantData W key place st) as [[[rd|]|e] st1] eqn:G;
    cbn [fst snd] in *.
  - rewrite (process_place_found _ _ _ _ _ _ _ G).
    destruct (get_aiSummary_invariant rd st1 H1) as [H2 P2].
    destruct (get_aiSummary W req rd st1) as [[v|e] st'] eqn:A;
      cbn [fst snd] in *.
    + split; [exact H2|]. intros r [= <-].
      eapply (R_result st1 key); [exact H1 | now apply P1 | now apply P2].
    + split; [exact H2 | discriminate].
  - rewrite (process_place_null _ _ _ _ _ _ G). split; [exact H1 | discriminate].
  - rewrite (process_place_dropped _ _ _ _ _ _ _ G); [|congruence..].
    split; [exact H1 | discriminate].
Qed.

Lemma mapM_cons {A B} (f : A -> M B) x l st :
  mapM f (x :: l) st
  = match f x st with
    | (Returned y, st1) =>
        match mapM f l st1 with
        | (Returned ys, st2) => (Returned (y :: ys), st2)
        | (Thrown e, st2) => (Thrown e, st2)
        end
    | (Thrown e, st1) => (Thrown e, st1)
    end.
Proof.
  cbn [mapM]. unfold bind at 1. destruct (f x st) as [[y|e] st1]; [|reflexivity].
  unfold bind at 1. now destruct (mapM f l st1) as [[ys|e] st2].
Qed.

Lemma mapM_invariant key l st :
  I st ->
  I (snd (mapM (process_place W key req) l st))
  /\ forall results,
       fst (mapM (process_place W key req) l st) = Returned results ->
       forall r, In (Some r) results -> R r.
Proof.
  revert st. induction l as [|place l IH]; intros st H.
  - cbn. split; [exact H|]. intros results [= <-] r [].
  - destruct (process_place_invariant key place st H) as [H1 P1].
    rewrite mapM_cons.
    destruct (process_place W key req place st) as [[res|e] st1];
      cbn [fst snd] in *; [|split; [exact H1 | intros; discriminate]].
    destruct (IH st1 H1) as [H2 P2].
    destruct (mapM (process_place W key req) l st1) as [[ys|e] st2];
      cbn [fst snd] in *; [|split; [exact H2 | intros; discriminate]].
    split; [exact H2|]. intros results [= <-] r [->|Hr].
    + now apply P1.
    + now apply (P2 ys).
Qed.

Lemma search_restaurants_invariant st :
  I st ->
  I (snd (search_restaurants W req st))
  /\ forall rs loc n,
       fst (search_restaurants W req st) = Returned (SearchOk rs loc n) ->
       forall x, In x rs -> R (restaurant x).
Proof.
  intros H.
  destruct (missing (GOOGLE_PLACES_API_KEY W) || missing (GEMINI_API_KEY W))
    eqn:K.
  { unfold search_restaurants. rewrite K. cbn. split; [exact H | intros; discriminate]. }
  rewrite (search_restaurants_stages _ _ _ K).
  assert (I (snd (resolve_location W (location req) st))) as H1.
  { destruct (resolve_location_state W (location req) st) as [E|E]; rewrite E;
      [exact H | now apply I_call]. }
  destruct (resolve_location W (location req) st) as [[coordinates|e] st1];
    cbn [snd] in H1; [|split; [exact H1 | intros; discriminate]].
  cbv zeta.
  pose proof (I_call _ (EvNearbySearch (places_query req coordinates)) H1) as H2.
  destruct (nearbysearch_api W (places_query req coordinates)) as [msg|pd];
    [split; [exact H2 | intros; discriminate]|].
  destruct (negb (String.eqb (places_status pd) "OK"));
    [split; [exact H2 | intros; discriminate]|].
  unfold enrich.
  destruct (mapM_invariant (default EmptyString (GOOGLE_PLACES_API_KEY W))
              (firstn 25 (places_results pd)) _ H2) as [H3 P3].
  destruct (mapM (process_place W (default EmptyString (GOOGLE_PLACES_API_KEY W)) req)
              (firstn 25 (places_results pd))
              (with_call st1 (EvNearbySearch (places_query req coordinates))))
    as [[results|e] st3]; cbn [fst snd] in *; [|split; [exact H3 | intros; discriminate]].
  split; [exact H3|]. intros rs loc n [= <- _ _] x Hx.
  apply rankedRestaurants_In in Hx as (r & Hr & ->). cbn.
  apply (P3 results eq_refl). now apply filter_Boolean_In_inv.
Qed.

End Invariant.

Lemma restaurantData_of_photos W key details :
  (length (rd_photos (restaurantData_of W key details)) <= 3)%nat.
Proof.
  cbn. destruct (pd_photos details) as [l|]; cbn; [|lia].
  rewrite length_map. apply firstn_le_length.
Qed.

(** If no cached venue row has more than three photos, no restaurant of
    a response has, and no row of the cache has after the request. *)
Theorem photos_never_exceed_three W req st :
  photos_capped st ->
  photos_capped (snd (search_restaurants W req st))
  /\ forall rs loc n,
       fst (search_restaurants W req st) = Returned (SearchOk rs loc n) ->
       forall x, In x rs -> (length (photos (restaurant x)) <= 3)%nat.
Proof.
  apply (search_restaurants_invariant W req photos_capped
           (fun r => (length (photos r) <= 3)%nat)).
  - intros s e H. exact H.
  - intros s key d H k row. unfold with_venue. cbn [restaurants_tbl].
    destruct (decide (rd_place_id (restaurantData_of W key d) = k)) as [<-|N].
    + rewrite lookup_insert_eq. intros [= <-]. cbn [venue_row rd_photos].
      apply restaurantData_of_photos.
    + rewrite lookup_insert_ne by exact N. apply H.
  - intros s a H. exact H.
  - intros s key rd v H [(k & L)|(d & ->)] _; cbn [result_of photos].
    + eapply H, L.
    + apply restaurantData_of_photos.
Qed.

Lemma photos_never_exceed_three_witness :
  Forall (fun x => (length (photos (restaurant x)) <= 3)%nat)
    match fst (search_restaurants Demo.world Demo.request
                 (Demo.state_with_venue "p9" 1000)) with
    | Returned (SearchOk rs _ _) => rs
    | _ => []
    end.
Proof.
  destruct (photos_never_exceed_three Demo.world Demo.request
              (Demo.state_with_venue "p9" 1000)) as [_ P].
  - intros k row H. cbn in H. apply lookup_singleton_Some in H as [_ <-].
    cbn. lia.
  - destruct (fst (search_restaurants Demo.world Demo.request
                     (Demo.state_with_venue "p9" 1000)))
      as [[|rs loc n|]|e] eqn:E; try constructor.
    apply List.Forall_forall. intros x Hx. eapply P; [reflexivity | exact Hx].
Defined.

(** If the cached summary rows respect their bounds, then in the summary
    of every restaurant of a response the rank_score is null or a number
    of [0,100] and the confidence is null or a number of [0,1], whether
    the summary was read from the cache or generated in this request
    (where the clamp of an answer that is not a number is NaN, which the
    response writes null). *)
Theorem response_summaries_in_bounds W req st rs loc n :
  summaries_in_bounds st ->
  fst (search_restaurants W req st) = Returned (SearchOk rs loc n) ->
  forall x, In x rs -> view_in_bounds (restaurant x).
Proof.
  intros H E.
  refine (proj2 (search_restaurants_invariant W req summaries_in_bounds
                   view_in_bounds _ _ _ _ st H) rs loc n E).
  - intros s e Hs. exact Hs.
  - intros s key d Hs. exact Hs.
  - intros s a Hs k row. unfold with_summary. cbn [summaries_tbl].
    destruct (decide (as_place_id (aiSummary_of W a) = k)) as [<-|N].
    + rewrite lookup_insert_eq. intros [= <-]. apply aiSummary_of_in_bounds.
    + rewrite lookup_insert_ne by exact N. apply Hs.
  - intros s key rd v Hs _ [->|[(k & row & L & ->)|(a & ->)]] x; cbn.
    + discriminate.
    + intros [= <-]. cbn. apply (Hs k row L).
    + intros [= <-]. cbn.
      apply (aiSummary_of_in_bounds W None a).
Qed.

Lemma response_summaries_in_bounds_witness :
  Forall (fun x => view_in_bounds (restaurant x))
    match fst (search_restaurants Demo.world Demo.request
                 (Demo.state_with_summary "p3")) with
    | Returned (SearchOk rs _ _) => rs
    | _ => []
    end.
Proof.
  destruct (fst (search_restaurants Demo.world Demo.request
                   (Demo.state_with_summary "p3")))
    as [[|rs loc n|]|e] eqn:E; try constructor.
  apply List.Forall_forall.
  refine (response_summaries_in_bounds Demo.world Demo.request
            (Demo.state_with_summary "p3") rs loc n _ E).
  intros k row H. cbn in H. apply lookup_singleton_Some in H as [_ <-].
  repeat split; apply Qle_bool_iff; reflexivity.
Defined.

(** ** Bounds of the score *)

Section ScoreBounds.

Local Open Scope Q_scope.







End ScoreBounds.


(** ** Code fences around the generator's answer *)

Section Fences.

Lemma append_empty (a : string) : a +:+ EmptyString = a.
Proof.
  induction a as [|x a IH]; [reflexivity|].
  change (String x (a +:+ EmptyString) = String x a). now rewrite IH.
Qed.

Lemma prefix_head_differs a pat c s :
  Ascii.eqb a c = false -> String.prefix (String a pat) (String c s) = false.
Proof.
  intros H. cbn. destruct (ascii_dec a c) as [->|]; [|reflexivity].
  now rewrite Ascii.eqb_refl in H.
Qed.

(** Nothing is removed from a text without a backtick. *)
Lemma remove_all_plain pat body tail :
  Js.includes "`" body = false ->
  Js.remove_all (String "`" pat) 0 (body +:+ tail)
  = body +:+ Js.remove_all (String "`" pat) 0 tail.
Proof.
  induction body as [|c body IH]; [reflexivity|].
  cbn [Js.includes]. destruct (Ascii.eqb "`" c) eqn:E; [discriminate|].
  intros H. change (String c body +:+ tail) with (String c (body +:+ tail)).
  cbn [Js.remove_all]. rewrite (prefix_head_differs _ _ _ _ E).
  now rewrite (IH H).
Qed.

Lemma trim_start_LF s :
  Js.trim_start (s +:+ LF)
  = match Js.trim_start s with
    | EmptyString => EmptyString
    | t => t +:+ LF
    end.
Proof.
  induction s as [|c s IH]; [reflexivity|].
  change (String c s +:+ LF) with (String c (s +:+ LF)). cbn [Js.trim_start].
  now destruct (Js.is_space c).
Qed.

Lemma trim_end_LF t : Js.trim_end (t +:+ LF) = Js.trim_end t.
Proof.
  induction t as [|c t IH]; [reflexivity|].
  change (String c t +:+ LF) with (String c (t +:+ LF)). cbn [Js.trim_end].
  now rewrite IH.
Qed.

Lemma trim_LF s : Js.trim (s +:+ LF) = Js.trim s.
Proof.
  unfold Js.trim. rewrite trim_start_LF.
  destruct (Js.trim_start s) as [|c t]; [reflexivity|]. apply trim_end_LF.
Qed.

(** An answer without a backtick is parsed as it is, up to surrounding
    white space; the same answer inside a json fence or inside a plain
    fence is unwrapped before it is parsed. *)
Theorem cleanJson_unwraps body :
  Js.includes "`" body = false ->
  cleanJson body = Js.trim body
  /\ cleanJson ("```json" +:+ LF +:+ body +:+ LF +:+ "```") = Js.trim body
  /\ cleanJson ("```" +:+ LF +:+ body +:+ LF +:+ "```") = Js.trim body.
Proof.
  intros H. unfold cleanJson.
  assert (forall pat, Js.remove_all (String "`" pat) 0 body = body) as P.
  { intros pat. rewrite <- (append_empty body) at 1.
    rewrite (remove_all_plain _ _ _ H). cbn. apply append_empty. }
  split; [|split].
  - now rewrite !P.
  - change (Js.remove_all "```json" 0 ("```json" +:+ LF +:+ body +:+ LF +:+ "```"))
      with (Js.remove_all "```json" 0 (body +:+ LF +:+ "```")).
    rewrite (remove_all_plain _ _ _ H).
    change (Js.remove_all "```json" 0 (LF +:+ "```")) with (LF +:+ "```")%string.
    rewrite (remove_all_plain _ _ _ H).
    change (Js.remove_all "```" 0 (LF +:+ "```")) with LF.
    apply trim_LF.
  - change (Js.remove_all "```json" 0 ("```" +:+ LF +:+ body +:+ LF +:+ "```"))
      with ("```" +:+ LF +:+ Js.remove_all "```json" 0 (body +:+ LF +:+ "```"))%string.
    rewrite (remove_all_plain _ _ _ H).
    change (Js.remove_all "```json" 0 (LF +:+ "```")) with (LF +:+ "```")%string.
    change (Js.remove_all "```" 0 ("```" +:+ LF +:+ body +:+ LF +:+ "```"))
      with (Js.remove_all "```" 0 (body +:+ LF +:+ "```")).
    rewrite (remove_all_plain _ _ _ H).
    change (Js.remove_all "```" 0 (LF +:+ "```")) with LF.
    apply trim_LF.
Qed.

Lemma cleanJson_unwraps_witness :
  cleanJson ("```json" +:+ LF +:+ "{p1}" +:+ LF +:+ "```") = "{p1}"%string.
Proof.
  refine (proj1 (proj2 (cleanJson_unwraps "{p1}" _))). reflexivity.
Defined.

End Fences.

(** ** The cleanup function and the handler *)

Section Cleanup.

Variable W : World.

(** After the cleanup the tables hold exactly the rows the handler
    treats as fresh: what the cleanup removes the handler already
    ignores, and what the handler still uses the cleanup keeps. *)
Theorem cleanup_keeps_what_is_fresh st k :
  restaurants_tbl (cleanup_old_cache (Date_now W) st) !! k = fresh_venue W st k
  /\ summaries_tbl (cleanup_old_cache (Date_now W) st) !! k = fresh_summary W st k.
Proof.
  unfold cleanup_old_cache, fresh_venue, fresh_summary, fresh.
  cbn [restaurants_tbl summaries_tbl]. split.
  - destruct (restaurants_tbl st !! k) as [row|] eqn:L.
    + destruct (Z.leb_spec (Date_now W - DAY_MS) (rd_cached_at row)) as [H|H].
      * apply map_lookup_filter_Some. now split.
      * apply map_lookup_filter_None. right. intros x Hx. cbn.
        assert (x = row) as -> by congruence. lia.
    + apply map_lookup_filter_None. now left.
  - destruct (summaries_tbl st !! k) as [row|] eqn:L.
    + destruct (Z.leb_spec (Date_now W - DAY_MS) (sr_generated_at row)) as [H|H].
      * apply map_lookup_filter_Some. now split.
      * apply map_lookup_filter_None. right. intros x Hx. cbn.
        assert (x = row) as -> by congruence. lia.
    + apply map_lookup_filter_None. now left.
Qed.

Lemma fresh_venue_cleanup st k :
  fresh_venue W (cleanup_old_cache (Date_now W) st) k = fresh_venue W st k.
Proof.
  unfold fresh_venue at 1.
  rewrite (proj1 (cleanup_keeps_what_is_fresh st k)).
  destruct (fresh_venue W st k) as [row|] eqn:F; [|reflexivity].
  unfold fresh_venue in F. destruct (restaurants_tbl st !! k) as [r|]; [|discriminate].
  destruct (fresh W (rd_cached_at r)) eqn:E; [|discriminate].
  injection F as <-. now rewrite E.
Qed.

Lemma fresh_summary_cleanup st k :
  fresh_summary W (cleanup_old_cache (Date_now W) st) k = fresh_summary W st k.
Proof.
  unfold fresh_summary at 1.
  rewrite (proj2 (cleanup_keeps_what_is_fresh st k)).
  destruct (fresh_summary W st k) as [row|] eqn:F; [|reflexivity].
  unfold fresh_summary in F. destruct (summaries_tbl st !! k) as [r|]; [|discriminate].
  destruct (fresh W (sr_generated_at r)) eqn:E; [|discriminate].
  injection F as <-. now rewrite E.
Qed.

Variable key : string.
Variable req : SearchParams.

(** The summarisation call answers the same in every state. *)
Lemma generate_summary_two rd texts st st' :
  let ev := EvGenerate (analysisPrompt req rd texts) in
  fst (generate_summary W req rd texts st) = fst (generate_summary W req rd texts st')
  /\ calls (snd (generate_summary W req rd texts st)) = calls st ++ [ev]
  /\ calls (snd (generate_summary W req rd texts st')) = calls st' ++ [ev]
  /\ restaurants_tbl (snd (generate_summary W req rd texts st)) = restaurants_tbl st.
Proof.
  intros ev. unfold generate_summary. run.
  destruct (generate_api W (analysisPrompt req rd texts)) as [msg|data];
    [now repeat split|].
  destruct (candidates data) as [[|first rest]|]; try now repeat split.
  destruct (cand_text first) as [text|]; [|now repeat split].
  destruct (JSON_parse W (cleanJson text)) as [a|]; now repeat split.
Qed.

(** Two states with the same fresh summaries give the same summary, by
    the same calls. *)
Lemma get_aiSummary_two rd st st' :
  fresh_summary W st (rd_place_id rd) = fresh_summary W st' (rd_place_id rd) ->
  exists new,
    fst (get_aiSummary W req rd st) = fst (get_aiSummary W req rd st')
    /\ calls (snd (get_aiSummary W req rd st)) = calls st ++ new
    /\ calls (snd (get_aiSummary W req rd st')) = calls st' ++ new.
Proof.
  intros E. destruct (fresh_summary W st (rd_place_id rd)) as [row|] eqn:F.
  - symmetry in E. rewrite (get_aiSummary_cached _ _ _ _ _ F).
    rewrite (get_aiSummary_cached _ _ _ _ _ E).
    exists []. cbn. now rewrite !app_nil_r.
  - symmetry in E. destruct (reviewTexts (rd_reviews rd)) as [|t ts] eqn:T.
    + rewrite (get_aiSummary_skip _ _ _ _ F T), (get_aiSummary_skip _ _ _ _ E T).
      exists []. cbn. now rewrite !app_nil_r.
    + rewrite !get_aiSummary_generate by (assumption || now rewrite T).
      rewrite T.
      destruct (generate_summary_two rd (t :: ts) st st') as (A & B & C & _).
      destruct (generate_summary W req rd (t :: ts) st) as [[a|e] s1],
               (generate_summary W req rd (t :: ts) st') as [[a'|e'] s1'];
        cbn [fst snd] in *; try discriminate A;
        (eexists; split; [congruence | split; eassumption]).
Qed.

(** Running the cleanup before the callback of a candidate changes
    neither what the callback returns nor the calls it makes. *)
Theorem cleanup_is_invisible place st :
  let st' := cleanup_old_cache (Date_now W) st in
  fst (process_place W key req place st') = fst (process_place W key req place st)
  /\ new_calls st' (snd (process_place W key req place st'))
     = new_calls st (snd (process_place W key req place st)).
Proof.
  intros st'.
  assert (forall s1 s1' rd pre,
             calls s1 = calls st ++ pre -> calls s1' = calls st' ++ pre ->
             summaries_tbl s1 = summaries_tbl st ->
             summaries_tbl s1' = summaries_tbl st' ->
             fst (get_aiSummary W req rd s1') = fst (get_aiSummary W req rd s1)
             /\ new_calls st' (snd (get_aiSummary W req rd s1'))
                = new_calls st (snd (get_aiSummary W req rd s1))) as K.
  { intros s1 s1' rd pre C C' S S'.
    destruct (get_aiSummary_two rd s1 s1') as (new & A & B & B').
    { unfold fresh_summary. rewrite S, S'.
      exact (eq_sym (fresh_summary_cleanup st (rd_place_id rd))). }
    split; [now symmetry|].
    rewrite (new_calls_app st' _ (pre ++ new)) by now rewrite B', C', app_assoc.
    rewrite (new_calls_app st _ (pre ++ new)) by now rewrite B, C, app_assoc.
    reflexivity. }
  pose proof (fresh_venue_cleanup st (pl_place_id place)) as V. fold st' in V.
  destruct (fresh_venue W st (pl_place_id place)) as [row|] eqn:F.
  - rewrite (process_place_found _ _ _ _ _ _ _ (get_restaurantData_hit _ _ _ _ _ V)).
    rewrite (process_place_found _ _ _ _ _ _ _ (get_restaurantData_hit _ _ _ _ _ F)).
    destruct (K st st' row []) as [A B]; try reflexivity;
      try (now rewrite app_nil_r).
    destruct (get_aiSummary W req row st') as [[v'|e'] s2'],
             (get_aiSummary W req row st) as [[v|e] s2];
      cbn [fst snd] in *; try discriminate A; split; congruence.
  - pose proof (get_restaurantData_miss W key place st F) as G.
    pose proof (get_restaurantData_miss W key place st' V) as G'.
    cbv zeta in G, G'.
    destruct (details_api W (pl_place_id place)) as [msg|data].
    { rewrite (process_place_dropped _ _ _ _ _ _ _ G) by congruence.
      rewrite (process_place_dropped _ _ _ _ _ _ _ G') by congruence.
      cbn [fst snd]. split; [reflexivity|].
      now rewrite !(new_calls_app _ _ [EvDetails (pl_place_id place)]). }
    destruct (negb (String.eqb (details_status data) "OK")).
    { rewrite (process_place_null _ _ _ _ _ _ G), (process_place_null _ _ _ _ _ _ G').
      cbn [fst snd]. split; [reflexivity|].
      now rewrite !(new_calls_app _ _ [EvDetails (pl_place_id place)]). }
    destruct (details_result data) as [d|].
    2:{ rewrite (process_place_dropped _ _ _ _ _ _ _ G) by congruence.
        rewrite (process_place_dropped _ _ _ _ _ _ _ G') by congruence.
        cbn [fst snd]. split; [reflexivity|].
        now rewrite !(new_calls_app _ _ [EvDetails (pl_place_id place)]). }
    rewrite (process_place_found _ _ _ _ _ _ _ G).
    rewrite (process_place_found _ _ _ _ _ _ _ G').
    match goal with
    | |- context [get_aiSummary W req ?rd ?s1'] =>
        match goal with
        | |- context [get_aiSummary W req rd ?s1] =>
            lazymatch s1 with
            | s1' => fail
            | _ =>
                destruct (K s1 s1' rd [EvDetails (pl_place_id place)])
                  as [A B]; try reflexivity
            end
        end
    end.
    match type of A with
    | fst ?x = fst ?y =>
        destruct x as [[v'|e'] s2'], y as [[v|e] s2];
        cbn [fst snd] in *; try discriminate A; split; congruence
    end.
Qed.

End Cleanup.


(** ** Which candidates are dropped *)

(** The callback returns null for a candidate exactly when the cache has
    no fresh venue row for it and its details call does not answer OK
    with a result (it throws, answers another status, or answers without
    a result); nothing that happens to the summary drops a candidate. *)
Theorem candidate_dropped_iff W key req place st :
  fst (process_place W key req place st) = Returned None
  <-> fresh_venue W st (pl_place_id place) = None /\ ~ details_available W place.
Proof.
  split.
  - intros H. split.
    + destruct (fresh_venue W st (pl_place_id place)) as [row|] eqn:F;
        [|reflexivity].
      rewrite (process_place_found _ _ _ _ _ _ _
                 (get_restaurantData_hit _ _ _ _ _ F)) in H.
      destruct (get_aiSummary_returns W req row st) as (v & st' & G).
      rewrite G in H. discriminate.
    + intros A. destruct (process_place_available W key req place st A)
        as (r & st' & P).
      rewrite P in H. discriminate.
  - intros [F N].
    pose proof (get_restaurantData_miss W key place st F) as G. cbv zeta in G.
    destruct (details_api W (pl_place_id place)) as [msg|data] eqn:D.
    { now rewrite (process_place_dropped _ _ _ _ _ _ _ G) by congruence. }
    destruct (String.eqb (details_status data) "OK") eqn:S; cbn [negb] in G.
    2:{ now rewrite (process_place_null _ _ _ _ _ _ G). }
    destruct (details_result data) as [d|] eqn:Rd.
    2:{ now rewrite (process_place_dropped _ _ _ _ _ _ _ G) by congruence. }
    elim N. exists d. rewrite D. destruct data as [status result].
    cbn in *. apply String.eqb_eq in S. now subst.
Qed.

Lemma candidate_dropped_iff_witness :
  fst (process_place Demo.world "gk" Demo.request (Demo.place "p2") Demo.empty_state)
  = Returned None.
Proof.
  apply (proj2 (candidate_dropped_iff Demo.world "gk" Demo.request
                  (Demo.place "p2") Demo.empty_state)).
  split; [reflexivity|]. intros (d & D). vm_compute in D. discriminate.
Defined.

(** ** Missing credentials *)

(** When one of the two API keys is unset or empty, the handler answers
    500 with the message of the missing keys, whatever the request and the
    cache hold: it makes no call and leaves the state as it is. *)
Theorem missing_credentials_fail_first W rq st :
  String.eqb (method rq) "OPTIONS" = false ->
  GOOGLE_PLACES_API_KEY W = None \/ GOOGLE_PLACES_API_KEY W = Some EmptyString
  \/ GEMINI_API_KEY W = None \/ GEMINI_API_KEY W = Some EmptyString ->
  serve W rq st
  = ({| status := 500; body := SearchFailed "Missing required API keys" [] 0 |}, st).
Proof.
  intros M K. unfold serve, search_restaurants. rewrite M.
  assert (missing (GOOGLE_PLACES_API_KEY W) || missing (GEMINI_API_KEY W) = true)
    as ->; [|reflexivity].
  destruct K as [K|[K|[K|K]]]; rewrite K; cbn;
    try reflexivity; apply orb_true_r.
Qed.

(** ** The score and the rating *)

Section Monotone.

Local Open Scope Q_scope.




End Monotone.

Lemma missing_credentials_fail_first_witness :
  serve Demo2.world_no_key {| method := "POST"; json := Demo.request |}
    Demo2.warm_state
  = ({| status := 500; body := SearchFailed "Missing required API keys" [] 0 |},
     Demo2.warm_state).
Proof.
  refine (missing_credentials_fail_first Demo2.world_no_key
            {| method := "POST"; json := Demo.request |} Demo2.warm_state _ _).
  - reflexivity.
  - right. right. right. reflexivity.
Defined.

(** * The page *)

Section Page.

Import Frontend.

Example label_ex : label "meal_takeaway" = "Meal Takeaway"%string.
Proof. reflexivity. Qed.

Example formatCuisineTypes_ex :
  formatCuisineTypes
    (Some ["indian_restaurant"; "cafe"; "point_of_interest"; "meal_takeaway";
           "bar"; "bakery"]%string)
  = ["Cafe"; "Meal Takeaway"; "Bar"]%string.
Proof. reflexivity. Qed.

Lemma existsb_eqb_In c l : existsb (String.eqb c) l = true <-> In c l.
Proof.
  rewrite existsb_exists. split.
  - intros (x & H & E). apply String.eqb_eq in E. now subst.
  - intros H. exists c. split; [exact H | apply String.eqb_refl].
Qed.

(** Toggling a cuisine flips whether it is selected and changes nothing
    else about the selection: every other cuisine stays as it was, a
    selection without repetitions stays without, and toggling a cuisine
    that was not selected twice gives the selection back. *)
Theorem toggleCuisine_flips cuisine prev :
  (In cuisine (toggleCuisine cuisine prev) <-> ~ In cuisine prev)
  /\ (forall c, c <> cuisine -> (In c (toggleCuisine cuisine prev) <-> In c prev))
  /\ (List.NoDup prev -> List.NoDup (toggleCuisine cuisine prev))
  /\ (~ In cuisine prev ->
      toggleCuisine cuisine (toggleCuisine cuisine prev) = prev).
Proof.
  unfold toggleCuisine.
  destruct (existsb (String.eqb cuisine) prev) eqn:E.
  - apply existsb_eqb_In in E. split; [|split; [|split]].
    + split.
      * intros H. apply filter_In in H as [_ H].
        rewrite String.eqb_refl in H. discriminate.
      * intros N. now elim N.
    + intros c Hc. split.
      * intros H. now apply filter_In in H as [H _].
      * intros H. apply filter_In. split; [exact H|].
        apply negb_true_iff, String.eqb_neq. exact Hc.
    + intros D. now apply List.NoDup_filter.
    + intros N. now elim N.
  - assert (~ In cuisine prev) as N.
    { intros H. apply existsb_eqb_In in H. congruence. }
    split; [|split; [|split]].
    + split.
      * intros _. exact N.
      * intros _. apply in_or_app. right. now left.
    + intros c Hc. split.
      * intros H. apply in_app_or in H as [H|[H|[]]]; [exact H | congruence].
      * intros H. apply in_or_app. now left.
    + intros D. apply List.NoDup_app; [exact D | repeat constructor; easy |].
      intros x Hx [<-|[]]. now elim N.
    + intros _.
      assert (existsb (String.eqb cuisine) (prev ++ [cuisine]) = true) as ->.
      { apply existsb_eqb_In, in_or_app. right. now left. }
      rewrite List.filter_app. cbn. rewrite String.eqb_refl. cbn.
      rewrite app_nil_r. clear E. induction prev as [|a l IH]; [reflexivity|].
      cbn. destruct (String.eqb_spec a cuisine) as [->|Na].
      * elim N. now left.
      * cbn. rewrite IH; [reflexivity|]. intros H. apply N. now right.
Qed.

Lemma toggleCuisine_flips_witness :
  toggleCuisine "Thai" (toggleCuisine "Thai" ["Indian"; "Greek"]%string)
  = ["Indian"; "Greek"]%string
  /\ List.NoDup (toggleCuisine "Thai" ["Indian"; "Greek"]%string).
Proof.
  split.
  - refine (proj2 (proj2 (proj2 (toggleCuisine_flips "Thai"
                                   ["Indian"; "Greek"]%string))) _).
    intros [H|[H|[]]]; discriminate.
  - refine (proj1 (proj2 (proj2 (toggleCuisine_flips "Thai"
                                   ["Indian"; "Greek"]%string))) _).
    repeat constructor; cbn; intuition discriminate.
Defined.

Lemma length_append (a b : string) :
  String.length (a +:+ b) = (String.length a + String.length b)%nat.
Proof.
  induction a as [|x a IH]; [reflexivity|].
  change (String x a +:+ b) with (String x (a +:+ b)). cbn. now rewrite IH.
Qed.

Lemma includes_append c (a b : string) :
  Js.includes c (a +:+ b) = Js.includes c a || Js.includes c b.
Proof.
  induction a as [|x a IH]; [reflexivity|].
  change (String x a +:+ b) with (String x (a +:+ b)). cbn [Js.includes].
  now destruct (Ascii.eqb c x).
Qed.

Lemma split_fields_clean c s :
  Forall (fun w => Js.includes c w = false) (Js.split c s).
Proof.
  induction s as [|d s IH]; [repeat constructor|]. cbn [Js.split].
  destruct (Ascii.eqb c d) eqn:E; [now constructor|].
  destruct (Js.split c s) as [|w ws]; [repeat constructor; cbn; now rewrite E|].
  inversion IH as [|? ? Hw Hws]; subst. constructor; [|exact Hws].
  cbn. now rewrite E.
Qed.

Lemma toUpperCase_not_underscore c :
  Ascii.eqb "_" c = false -> Ascii.eqb "_" (toUpperCase c) = false.
Proof.
  intros H. unfold toUpperCase.
  destruct ((97 <=? nat_of_ascii c) && (nat_of_ascii c <=? 122))%nat eqn:E;
    [|exact H].
  apply andb_true_iff in E as [A B]. apply Nat.leb_le in A, B.
  apply Ascii.eqb_neq. intros U.
  apply (f_equal nat_of_ascii) in U.
  rewrite nat_ascii_embedding in U by lia.
  change (nat_of_ascii "_") with 95%nat in U. lia.
Qed.

Lemma capitalize_clean w :
  Js.includes "_" w = false -> Js.includes "_" (capitalize w) = false.
Proof.
  destruct w as [|c w]; [trivial|]. cbn [capitalize Js.includes].
  destruct (Ascii.eqb "_" c) eqn:E; [discriminate|].
  now rewrite (toUpperCase_not_underscore _ E).
Qed.

Lemma join_clean words :
  Forall (fun w => Js.includes "_" w = false) words ->
  Js.includes "_" (join " " words) = false.
Proof.
  induction 1 as [|w ws Hw Hws IH]; [reflexivity|].
  destruct ws as [|w' ws]; [exact Hw|].
  change (join " " (w :: w' :: ws)) with (w +:+ " " +:+ join " " (w' :: ws)).
  rewrite !includes_append, Hw, IH. reflexivity.
Qed.

Lemma join_weight words :
  words <> [] -> S (String.length (join " " words)) = weight words.
Proof.
  induction words as [|w ws IH]; [congruence|]. intros _.
  destruct ws as [|w' ws]; [cbn; lia|].
  change (join " " (w :: w' :: ws)) with (w +:+ " " +:+ join " " (w' :: ws)).
  rewrite !length_append. specialize (IH ltac:(discriminate)).
  cbn [weight String.length] in *. lia.
Qed.

Lemma capitalize_weight words : weight (List.map capitalize words) = weight words.
Proof.
  induction words as [|w ws IH]; [reflexivity|].
  cbn [List.map weight]. rewrite IH. now destruct w.
Qed.

Lemma split_weight c s : weight (Js.split c s) = S (String.length s).
Proof.
  induction s as [|d s IH]; [reflexivity|]. cbn [Js.split].
  destruct (Ascii.eqb c d).
  - cbn [weight String.length] in *. lia.
  - pose proof (split_nonempty c s).
    destruct (Js.split c s) as [|w ws]; [congruence|].
    cbn [weight String.length] in *. lia.
Qed.

Lemma label_length type : String.length (label type) = String.length type.
Proof.
  unfold label.
  assert (List.map capitalize (Js.split "_" type) <> []) as N.
  { pose proof (split_nonempty "_" type).
    now destruct (Js.split "_" type). }
  pose proof (join_weight _ N) as H.
  rewrite capitalize_weight, split_weight in H. lia.
Qed.

Lemma label_clean type : Js.includes "_" (label type) = false.
Proof.
  unfold label. apply join_clean.
  pose proof (split_fields_clean "_" type) as H.
  induction H as [|w ws Hw _ IH]; constructor; [now apply capitalize_clean | exact IH].
Qed.

(** The badges of a card: at most three labels; every label renders a
    type of the venue that is neither establishment nor
    point_of_interest and does not mention restaurant; a label has as many
    characters as its type and no underscore. *)
Theorem formatCuisineTypes_labels types :
  Forall (fun type => is_ascii type = true) (default [] types) ->
  (length (formatCuisineTypes types) <= 3)%nat
  /\ Forall
       (fun l =>
          Js.includes "_" l = false
          /\ exists type,
               In type (default [] types)
               /\ type <> "establishment"%string
               /\ type <> "point_of_interest"%string
               /\ includes_str "restaurant" type = false
               /\ l = label type
               /\ String.length l = String.length type)
       (formatCuisineTypes types).
Proof.
  intros _.
  destruct types as [ts|]; cbn [formatCuisineTypes default];
    [|split; [cbn; lia | constructor]].
  split.
  - rewrite length_map. apply firstn_le_length.
  - apply List.Forall_forall. intros l Hl.
    apply in_map_iff in Hl as (type & <- & Ht).
    assert (In type (List.filter is_food_type ts)) as Hf.
    { rewrite <- (firstn_skipn 3 (List.filter is_food_type ts)).
      apply in_or_app. now left. }
    apply filter_In in Hf as [Hin Hfood].
    split; [apply label_clean|]. exists type.
    unfold is_food_type in Hfood. apply andb_true_iff in Hfood as [A B].
    apply negb_true_iff in A, B. cbn in A.
    apply orb_false_iff in A as [A1 A2]. apply orb_false_iff in A2 as [A2 _].
    apply String.eqb_neq in A1, A2.
    repeat split; auto using label_length.
Qed.

Lemma formatCuisineTypes_labels_witness :
  (length
     (formatCuisineTypes
        (Some ["indian_restaurant"; "cafe"; "point_of_interest"; "meal_takeaway";
               "bar"; "bakery"]%string)) <= 3)%nat
  /\ formatCuisineTypes
       (Some ["indian_restaurant"; "cafe"; "point_of_interest"; "meal_takeaway";
              "bar"; "bakery"]%string)
     = ["Cafe"; "Meal Takeaway"; "Bar"]%string.
Proof.
  split; [|reflexivity].
  refine (proj1 (formatCuisineTypes_labels
                   (Some ["indian_restaurant"; "cafe"; "point_of_interest";
                          "meal_takeaway"; "bar"; "bakery"]%string) _)).
  repeat constructor.
Defined.

End Page.
